(** * A user-account service: credential check, profile update, safe projection

    Shallow embedding of [src/models/user.py], [src/db.py] and [src/api.py].

    - Python [str] and [bytes] are both represented by [string]: a text is
      identified with its UTF-8 encoding, so [encode_utf8] and [decode_utf8]
      are the identity on the representation.
    - A [datetime] is a number of microseconds since the epoch ([Z]).
    - The SQL table of users is a finite map from primary key to row, with
      the behaviour of the SQLite engine the tests run on: keys are 64-bit
      integers, a row inserted without a key gets the successor of the
      largest one, a timestamp column takes a datetime only.  The
      constraints of the columns ([primary_key], [unique], [nullable=False])
      are checked by the INSERT and the UPDATE, and a column whose
      attribute is [None] at the INSERT takes its default.
    - The request handlers run in a state-and-exception monad over [World],
      which holds the table, the wall clock, the two class-level timestamp
      defaults, the random source used by [bcrypt.gensalt], the availability
      of the database server at the coming round trips, and a log of the
      calls made to [bcrypt.checkpw].
    - [bcrypt] is an interface ([Class Bcrypt]); its two functions may raise.
    - A handler receives what FastAPI hands it: the parsed model and the
      decoded Basic credentials.  The body of a signup is read into the
      [table=True] model without validation, so a timestamp member stays
      the JSON value it was.  Routing and logging are not part of the
      embedding. *)

From stdpp Require Import base option list strings gmap fin_maps.

Local Open Scope Z_scope.
Local Open Scope string_scope.

(** ** Data model *)

Definition bytes := string.
Definition datetime := Z.

Definition encode_utf8 (s : string) : bytes := s.
Definition decode_utf8 (b : bytes) : string := b.

(** JSON values that occur in a request or response body.  [JIso t] stands
    for the string [t.isoformat()]. *)
Inductive Json :=
| JNull
| JInt (n : Z)
| JStr (s : string)
| JIso (t : datetime).

(** What a timestamp attribute of a [User] holds: a [datetime], or, in an
    instance that FastAPI built from a JSON body, the JSON value of the
    member as it came (a [table=True] model is not validated, and JSON has
    no datetimes). *)
Inductive Stamp :=
| Dt (t : datetime)
| Raw (j : Json).

(** [class User(SQLModel, table=True)], fields as annotated in the class. *)
Record User := mkUser {
  id : option Z;
  email : string;
  password : string;
  first_name : option string;
  last_name : option string;
  account_created : option Stamp;
  account_updated : option Stamp
}.

Definition set_password (u : User) (v : string) : User :=
  mkUser (id u) (email u) v (first_name u) (last_name u)
         (account_created u) (account_updated u).
Definition set_first_name (u : User) (v : option string) : User :=
  mkUser (id u) (email u) (password u) v (last_name u)
         (account_created u) (account_updated u).
Definition set_last_name (u : User) (v : option string) : User :=
  mkUser (id u) (email u) (password u) (first_name u) v
         (account_created u) (account_updated u).
Definition set_account_updated (u : User) (v : option Stamp) : User :=
  mkUser (id u) (email u) (password u) (first_name u) (last_name u)
         (account_created u) v.

(** [class UpdateRequest(BaseModel)]: every field defaults to [None]. *)
Record UpdateRequest := mkUpdateRequest {
  req_password : option string;
  req_last_name : option string;
  req_first_name : option string
}.

(** [HTTPBasicCredentials] *)
Record Credentials := mkCredentials {
  username : string;
  cred_password : string
}.

(** A [dict] with string keys, in insertion order (the order in which
    [json.dumps] writes the members). *)
Definition PyDict := list (string * Json).

Definition keys (d : PyDict) : list string := d.*1.

(** [fastapi.Response(status_code, headers, content)] *)
Record Response := mkResponse {
  status_code : Z;
  headers : list (string * string);
  content : option PyDict
}.

(** ** Exceptions, outcomes and the world *)

Inductive Exn :=
| ValueError
| AttributeError
| OperationalError
| IntegrityError
| InvalidRequestError
| StatementError
| OverflowError.

Inductive Outcome (A : Type) :=
| Ret (a : A)
| Raise (e : Exn).
Arguments Ret {A} a.
Arguments Raise {A} e.

Record World := mkWorld {
  table : gmap Z User;          (* rows of the user table, by primary key *)
  faults : list bool;           (* coming round trips to the server: [true] = it fails *)
  clock : datetime;             (* what [datetime.now(timezone.utc)] returns *)
  default_created : datetime;   (* class-level default of [account_created] *)
  default_updated : datetime;   (* class-level default of [account_updated] *)
  entropy : nat -> bytes;       (* the salts [bcrypt.gensalt] will hand out *)
  draws : nat;                  (* how many salts were drawn so far *)
  checkpw_log : list (bytes * bytes)  (* arguments of the calls to [bcrypt.checkpw] *)
}.

Definition set_table (w : World) (t : gmap Z User) : World :=
  mkWorld t (faults w) (clock w) (default_created w) (default_updated w)
          (entropy w) (draws w) (checkpw_log w).
Definition set_faults (w : World) (f : list bool) : World :=
  mkWorld (table w) f (clock w) (default_created w) (default_updated w)
          (entropy w) (draws w) (checkpw_log w).
Definition set_draws (w : World) (n : nat) : World :=
  mkWorld (table w) (faults w) (clock w) (default_created w) (default_updated w)
          (entropy w) n (checkpw_log w).
Definition set_checkpw_log (w : World) (l : list (bytes * bytes)) : World :=
  mkWorld (table w) (faults w) (clock w) (default_created w) (default_updated w)
          (entropy w) (draws w) l.

(** The monad of the handlers: state passing, with exceptions that keep the
    state reached when they were raised. *)
Definition M (A : Type) : Type := World -> Outcome A * World.

#[global] Instance M_ret : MRet M := fun A a w => (Ret a, w).
#[global] Instance M_bind : MBind M := fun A B f m w =>
  match m w with
  | (Ret a, w') => f a w'
  | (Raise e, w') => (Raise e, w')
  end.

Definition raise {A} (e : Exn) : M A := fun w => (Raise e, w).
Definition get_world : M World := fun w => (Ret w, w).
Definition put_world (w' : World) : M unit := fun _ => (Ret tt, w').

(** [try: body  except Exception as e: handler(e)] *)
Definition try_except {A} (body : M A) (handler : Exn -> M A) : M A := fun w =>
  match body w with
  | (Ret a, w') => (Ret a, w')
  | (Raise e, w') => handler e w'
  end.

(** Lifting a library call that may raise. *)
Definition lift {A} (o : Outcome A) : M A := fun w => (o, w).

(** ** The external libraries *)

(** The two entry points of the [bcrypt] package that the handlers call.
    Both may raise: [checkpw] signals a stored value that is not a bcrypt
    hash with [ValueError]. *)
Class Bcrypt := {
  hashpw : bytes -> bytes -> Outcome bytes;
  checkpw : bytes -> bytes -> Outcome bool
}.

(** [bcrypt.gensalt()] draws the next salt from the random source. *)
Definition gensalt : M bytes := fun w =>
  (Ret (entropy w (draws w)), set_draws w (S (draws w))).

(** [bcrypt.checkpw(p, h)], recorded in the log. *)
Definition call_checkpw `{Bcrypt} (p h : bytes) : M bool := fun w =>
  (checkpw p h, set_checkpw_log w (checkpw_log w ++ [(p, h)])).

(** [datetime.now(timezone.utc)] *)
Definition datetime_now : M datetime := fun w => (Ret (clock w), w).

(** ** The database session (SQLModel / SQLAlchemy over one table) *)

(** One round trip to the database server.  It consumes the next entry of
    [faults]; with no entry left the server is reachable. *)
Definition server_down (w : World) : bool :=
  match faults w with
  | true :: _ => true
  | _ => false
  end.

Definition after_trip (w : World) : World := set_faults w (tail (faults w)).

Definition round_trip : M unit := fun w =>
  if server_down w then (Raise OperationalError, after_trip w)
  else (Ret tt, after_trip w).

(** [select(User).where(User.email == email)] followed by [.first()]. *)
Definition find_email (e : string) (t : gmap Z User) : option User :=
  (fun r => r.2.2) <$> list_find (fun kv => email kv.2 = e) (map_to_list t).

(** The keys of the table are 64-bit signed integers (SQLite's ROWID, the
    engine the tests run on). *)
Definition min_rowid : Z := - 2 ^ 63.
Definition max_rowid : Z := 2 ^ 63 - 1.

Definition rowid_in_range (k : Z) : bool :=
  ((min_rowid <=? k)%Z && (k <=? max_rowid)%Z)%bool.

(** The key given to a row inserted without one: 1 in an empty table,
    otherwise the successor of the largest key in use.  When the largest
    key is [max_rowid] the engine tries positive keys at random until one
    is free; here the least free one among the first [size t + 1]. *)
Definition fresh_id (t : gmap Z User) : Z :=
  match (map_to_list t).*1 with
  | [] => 1
  | k :: ks =>
      let m := foldr Z.max k ks in
      if (m <? max_rowid)%Z then m + 1
      else default (m + 1)
             (head (filter (fun c => t !! c = None)
                      ((fun n => Z.of_nat n) <$> seq 1 (S (size t)))))
  end.

(** The value bound to a timestamp column by the INSERT.  The ORM leaves an
    attribute that is [None] out of the statement, so the column takes its
    default, the class-level one of [Field(default=...)]; a [datetime] is
    written as it is; anything else cannot be bound and the statement
    fails. *)
Definition column_value (dflt : datetime) (o : option Stamp) : Outcome datetime :=
  match o with
  | None => Ret dflt
  | Some (Dt t) => Ret t
  | Some (Raw _) => Raise StatementError
  end.

(** [session.add(new_user); session.commit()]: one INSERT.  The statement
    fails when a timestamp cannot be bound or the key is not a 64-bit
    integer; the table rejects a row whose [first_name] or [last_name] is
    NULL ([nullable=False]), whose primary key is taken, or whose [email]
    is taken ([unique=True]).  The row written holds the key and the bound
    timestamps. *)
Definition session_add_commit (new_user : User) : M unit :=
  round_trip;;
  w ← get_world;
  let key := default (fresh_id (table w)) (id new_user) in
  created ← lift (column_value (default_created w) (account_created new_user));
  updated ← lift (column_value (default_updated w) (account_updated new_user));
  if rowid_in_range key then
    match first_name new_user, last_name new_user with
    | Some _, Some _ =>
        match table w !! key, find_email (email new_user) (table w) with
        | None, None =>
            put_world
              (set_table w
                 (<[key := mkUser (Some key) (email new_user) (password new_user)
                                 (first_name new_user) (last_name new_user)
                                 (Some (Dt created)) (Some (Dt updated))]>
                    (table w)))
        | _, _ => raise IntegrityError
        end
    | _, _ => raise IntegrityError
    end
  else raise OverflowError.

(** [session.exec(select(User).where(User.email == email)).first()] *)
Definition session_exec_select_email (e : string) : M (option User) :=
  round_trip;;
  w ← get_world;
  mret (find_email e (table w)).

(** [session.get(User, user_id)]; a NULL key identifies no row. *)
Definition session_get (user_id : option Z) : M (option User) :=
  match user_id with
  | Some k =>
      round_trip;;
      w ← get_world;
      mret (table w !! k)
  | None => mret None
  end.

(** [session.commit()] with one modified object: one UPDATE of its row. *)
Definition session_commit (u : User) : M unit :=
  match id u with
  | Some k =>
      round_trip;;
      w ← get_world;
      match first_name u, last_name u with
      | Some _, Some _ => put_world (set_table w (<[k := u]> (table w)))
      | _, _ => raise IntegrityError
      end
  | None => raise InvalidRequestError
  end.

(** [session.refresh(u)]: reload the row of [u]. *)
Definition session_refresh (u : User) : M User :=
  match id u with
  | Some k =>
      round_trip;;
      w ← get_world;
      match table w !! k with
      | Some r => mret r
      | None => raise InvalidRequestError
      end
  | None => raise InvalidRequestError
  end.

(** ** [src/db.py] *)

(** [SELECT 1] answers 1 whenever the server answers. *)
Definition check_connection : M bool :=
  try_except
    (round_trip;;
     mret true)
    (fun _ => mret false).

Definition create_user (new_user : User) : M bool :=
  try_except
    (session_add_commit new_user;;
     mret true)
    (fun _ => mret false).

Definition get_user_from_email (e : string) : M (option User) :=
  try_except
    (user ← session_exec_select_email e;
     match user with
     | Some user => mret (Some user)
     | None => mret None
     end)
    (fun _ => mret None).

(** The loop over [fields_to_update] is unrolled.  [user] is a [User], so
    [getattr(user, field, ...)] always finds the attribute and the fallback
    to the existing value is never taken. *)
Definition update_user_with_id (user_id : option Z) (user : User) : M (option User) :=
  try_except
    (existing_user ← session_get user_id;
     match existing_user with
     | Some existing_user =>
         let existing_user := set_first_name existing_user (first_name user) in
         let existing_user := set_last_name existing_user (last_name user) in
         let existing_user := set_password existing_user (password user) in
         now ← datetime_now;
         let existing_user := set_account_updated existing_user (Some (Dt now)) in
         session_commit existing_user;;
         res ← session_refresh existing_user;
         mret (Some res)
     | None => mret None
     end)
    (fun _ => mret None).

(** ** [src/models/user.py] *)

(** What [Field(String, ...)] installs as the default of a text column: its
    first positional argument, the SQLAlchemy type itself.  It is not a
    text; it stands here under its name and is never inspected. *)
Definition String_default : string := "String".

(** [User(first_name=..., last_name=..., password=...)]: the other
    attributes take their class-level defaults. *)
Definition User_of_names_password (w : World)
    (fn ln : option string) (pw : string) : User :=
  mkUser None String_default pw fn ln
         (Some (Dt (default_created w))) (Some (Dt (default_updated w))).

(** The JSON body of [POST /signup/]: the four texts are supplied as JSON
    strings (a name may be [null]); [id] is omitted, [null] or a JSON
    integer; each timestamp member is omitted ([None]) or holds a JSON
    value. *)
Record SignupBody := mkSignupBody {
  body_id : option Z;
  body_email : string;
  body_password : string;
  body_first_name : option string;
  body_last_name : option string;
  body_account_created : option Json;
  body_account_updated : option Json
}.

(** The attribute that a timestamp member of the body becomes: [null] is
    [None], any other value stays as it came. *)
Definition stamp_of_json (j : Json) : option Stamp :=
  match j with
  | JNull => None
  | _ => Some (Raw j)
  end.

(** The body read as a [User], without validation: omitted timestamps take
    the class-level defaults, which were computed once, when the class was
    defined. *)
Definition parse_User (w : World) (b : SignupBody) : User :=
  mkUser (body_id b) (body_email b) (body_password b)
         (body_first_name b) (body_last_name b)
         (match body_account_created b with
          | None => Some (Dt (default_created w))
          | Some j => stamp_of_json j
          end)
         (match body_account_updated b with
          | None => Some (Dt (default_updated w))
          | Some j => stamp_of_json j
          end).

Definition json_of_int (o : option Z) : Json :=
  match o with Some n => JInt n | None => JNull end.
Definition json_of_str (o : option string) : Json :=
  match o with Some s => JStr s | None => JNull end.

(** [User.safe_dict]: only a [datetime] has [isoformat]; on [None] and on
    any JSON value the call raises [AttributeError]. *)
Definition safe_dict (self : User) : Outcome PyDict :=
  match account_created self, account_updated self with
  | Some (Dt c), Some (Dt u) =>
      Ret [("id", json_of_int (id self));
           ("email", JStr (email self));
           ("first_name", json_of_str (first_name self));
           ("last_name", json_of_str (last_name self));
           ("account_created", JIso c);
           ("account_updated", JIso u)]
  | _, _ => Raise AttributeError
  end.

(** ** [src/api.py] *)

Definition unauthorized : Response :=
  mkResponse 401 [("WWW-Authenticate", "Basic")] None.

(** Truth value of an [Optional[str]]: [None] and the empty text are false. *)
Definition truthy (o : option string) : bool :=
  match o with
  | Some s => negb (String.eqb s "")
  | None => false
  end.

Section Handlers.
Context `{Bcrypt}.

Definition health_check : M Response :=
  res ← check_connection;
  if (res : bool) then mret (mkResponse 200 [] None)
  else mret (mkResponse 503 [] None).

Definition signup (new_user : User) : M Response :=
  salt ← gensalt;
  h ← lift (hashpw (encode_utf8 (password new_user)) salt);
  let new_user := set_password new_user (decode_utf8 h) in
  res ← create_user new_user;
  if (res : bool) then mret (mkResponse 201 [] None)
  else mret (mkResponse 503 [] None).

Definition login (credentials : Credentials) : M Response :=
  user ← get_user_from_email (username credentials);
  match user with
  | Some user =>
      ok ← call_checkpw (encode_utf8 (cred_password credentials))
                        (encode_utf8 (password user));
      if (ok : bool) then mret (mkResponse 200 [] None)
      else mret unauthorized
  | None => mret unauthorized
  end.

Definition get_current_user (credentials : Credentials) : M Response :=
  user ← get_user_from_email (username credentials);
  match user with
  | Some user =>
      ok ← call_checkpw (encode_utf8 (cred_password credentials))
                        (encode_utf8 (password user));
      if (ok : bool) then
        d ← lift (safe_dict user);
        mret (mkResponse 200 [] (Some d))
      else mret unauthorized
  | None => mret unauthorized
  end.

Definition update_user (credentials : Credentials) (new_user : UpdateRequest)
    : M Response :=
  user_from_db ← get_user_from_email (username credentials);
  match user_from_db with
  | Some user_from_db =>
      ok ← call_checkpw (encode_utf8 (cred_password credentials))
                        (encode_utf8 (password user_from_db));
      if (ok : bool) then
        let fn := if truthy (req_first_name new_user)
                  then req_first_name new_user
                  else first_name user_from_db in
        let ln := if truthy (req_last_name new_user)
                  then req_last_name new_user
                  else last_name user_from_db in
        pw ← (match req_password new_user with
              | Some p =>
                  if truthy (Some p) then
                    salt ← gensalt;
                    h ← lift (hashpw (encode_utf8 p) salt);
                    mret (decode_utf8 h)
                  else mret (password user_from_db)
              | None => mret (password user_from_db)
              end);
        w ← get_world;
        res ← update_user_with_id (id user_from_db)
                (User_of_names_password w fn ln pw);
        match res with
        | Some _ => mret (mkResponse 200 [] None)
        | None => mret unauthorized
        end
      else mret unauthorized
  | None => mret unauthorized
  end.

(** [POST /signup/] from the JSON body. *)
Definition post_signup (b : SignupBody) : M Response :=
  w ← get_world;
  signup (parse_User w b).

End Handlers.

(** ** The vocabulary of the statements *)

(** Every row is stored under its own [id]. *)
Definition keyed (t : gmap Z User) : Prop :=
  forall k u, t !! k = Some u -> id u = Some k.

(** The [unique=True] constraint on [email]. *)
Definition unique_email (t : gmap Z User) : Prop :=
  forall k1 k2 u1 u2,
    t !! k1 = Some u1 -> t !! k2 = Some u2 -> email u1 = email u2 -> k1 = k2.

(** The [nullable=False] constraint on the two names. *)
Definition names_present (t : gmap Z User) : Prop :=
  forall k u, t !! k = Some u -> is_Some (first_name u) /\ is_Some (last_name u).

Record wf_table (t : gmap Z User) : Prop := mk_wf_table {
  wf_keyed : keyed t;
  wf_unique : unique_email t;
  wf_names : names_present t
}.

(** The key under which [new_user] would be inserted. *)
Definition insert_key (new_user : User) (w : World) : Z :=
  default (fresh_id (table w)) (id new_user).

(** A timestamp attribute that the INSERT can bind: [None] or a
    [datetime]. *)
Definition bindable (o : option Stamp) : bool :=
  match o with
  | Some (Raw _) => false
  | _ => true
  end.

(** The timestamp that the INSERT writes for a bindable attribute. *)
Definition bound_stamp (dflt : datetime) (o : option Stamp) : datetime :=
  match o with
  | Some (Dt t) => t
  | _ => dflt
  end.

(** The INSERT of [new_user] goes through: the server answers, both
    timestamps can be bound, the key is a 64-bit integer and no constraint
    of the table is violated. *)
Definition insertable (new_user : User) (w : World) : bool :=
  match server_down w,
        bindable (account_created new_user), bindable (account_updated new_user),
        rowid_in_range (insert_key new_user w),
        first_name new_user, last_name new_user,
        table w !! insert_key new_user w,
        find_email (email new_user) (table w) with
  | false, true, true, true, Some _, Some _, None, None => true
  | _, _, _, _, _, _, _, _ => false
  end.

(** The row that the INSERT of [new_user] writes. *)
Definition stored_row (new_user : User) (w : World) : User :=
  mkUser (Some (insert_key new_user w)) (email new_user) (password new_user)
         (first_name new_user) (last_name new_user)
         (Some (Dt (bound_stamp (default_created w) (account_created new_user))))
         (Some (Dt (bound_stamp (default_updated w) (account_updated new_user)))).

Definition inserted (new_user : User) (w : World) : World :=
  set_table (after_trip w)
    (<[insert_key new_user w := stored_row new_user w]> (table w)).

(** The row that [update_user_with_id] writes over [old] at time [now]. *)
Definition merged (old user : User) (now : datetime) : User :=
  set_account_updated
    (set_password
       (set_last_name (set_first_name old (first_name user)) (last_name user))
       (password user))
    (Some (Dt now)).

(** Three round trips: the load, the UPDATE and the reload. *)
Definition trips3 (w : World) : World := after_trip (after_trip (after_trip w)).

(** The world after the lookup and one password comparison against the
    hash stored for [u]. *)
Definition compared (credentials : Credentials) (u : User) (w : World) : World :=
  set_checkpw_log (after_trip w)
    (checkpw_log w ++
       [(encode_utf8 (cred_password credentials), encode_utf8 (password u))]).

Definition ok_200 : Response := mkResponse 200 [] None.

(** The values that [update_user] hands to the store for the two names. *)
Definition next_first_name (new_user : UpdateRequest) (user_from_db : User) :=
  if truthy (req_first_name new_user) then req_first_name new_user
  else first_name user_from_db.
Definition next_last_name (new_user : UpdateRequest) (user_from_db : User) :=
  if truthy (req_last_name new_user) then req_last_name new_user
  else last_name user_from_db.

(** [pw] is the password text that [update_user] hands to the store: the
    stored hash when the request has no password, the hash of the new
    password under the next salt otherwise. *)
Definition next_password `{Bcrypt} (new_user : UpdateRequest)
    (user_from_db : User) (w : World) (pw : string) : Prop :=
  (truthy (req_password new_user) = false /\ pw = password user_from_db) \/
  (exists p h, req_password new_user = Some p /\ truthy (Some p) = true /\
     hashpw (encode_utf8 p) (entropy w (draws w)) = Ret h /\
     pw = decode_utf8 h).

(** The keys that the specification lists for the body of [GET /me]. *)
Definition listed_keys : list string :=
  ["email"; "first_name"; "last_name"; "account_created"; "account_updated"].

(** The keys that [safe_dict] writes. *)
Definition safe_keys : list string :=
  ["id"; "email"; "first_name"; "last_name"; "account_created"; "account_updated"].

Definition created_201 : Response := mkResponse 201 [] None.
Definition unavailable_503 : Response := mkResponse 503 [] None.

(** The requests of the API that touch the user table. *)
Inductive Request :=
| PostSignup (b : SignupBody)
| GetLogin (credentials : Credentials)
| GetMe (credentials : Credentials)
| PutMe (credentials : Credentials) (new_user : UpdateRequest).

Definition handle `{Bcrypt} (q : Request) : M Response :=
  match q with
  | PostSignup b => post_signup b
  | GetLogin c => login c
  | GetMe c => get_current_user c
  | PutMe c r => update_user c r
  end.

(** Every row holds a datetime in both timestamp columns. *)
Definition stamps_set (t : gmap Z User) : Prop :=
  forall k u, t !! k = Some u ->
    exists c m, account_created u = Some (Dt c) /\ account_updated u = Some (Dt m).

(** The credentials that come with a request, when it carries some. *)
Definition credentials_of (q : Request) : option Credentials :=
  match q with
  | PostSignup _ => None
  | GetLogin c => Some c
  | GetMe c => Some c
  | PutMe c _ => Some c
  end.

(** The worlds reached from an empty table by requests, between which
    anything but the table may change (time passes, the server comes and
    goes). *)
Inductive reachable `{Bcrypt} : World -> Prop :=
| reach_boot w : table w = ∅ -> reachable w
| reach_handle q w o w' : reachable w -> handle q w = (o, w') -> reachable w'
| reach_env w w' : reachable w -> table w' = table w -> reachable w'.

(** ** An executable stand-in for [bcrypt], to run the handlers on examples

    It has the shape of the package: a salt is a 4-byte tag followed by
    4 bytes, [hashpw p s] reads its salt from the first 8 bytes of [s] and
    raises [ValueError] when they are not a salt, and [checkpw p h] hashes
    [p] again with the salt found in [h] and compares.  The digest itself
    is the password in clear. *)
Module Demo.

Definition salt_of (s : bytes) : option bytes :=
  let sp := String.substring 0 8 s in
  if String.prefix "$2b$" sp && (String.length sp =? 8)%nat then Some sp else None.

Definition demo_hashpw (p s : bytes) : Outcome bytes :=
  match salt_of s with
  | Some sp => Ret (sp ++ p)
  | None => Raise ValueError
  end.

Definition demo_checkpw (p h : bytes) : Outcome bool :=
  match demo_hashpw p h with
  | Ret h' => Ret (String.eqb h' h)
  | Raise e => Raise e
  end.

#[export] Instance demo_bcrypt : Bcrypt :=
  {| hashpw := demo_hashpw; checkpw := demo_checkpw |}.

(** A freshly started service: empty table, reachable server, class
    loaded at time 1000, clock at 5000. *)
Definition boot : World :=
  mkWorld ∅ [] 5000 1000 1001 (fun _ => "$2b$abcd") 0 [].

Definition alice : SignupBody :=
  mkSignupBody None "a@x.com" "longenough1" (Some "A") (Some "B") None None.

Definition alice_creds : Credentials := mkCredentials "a@x.com" "longenough1".

(** The row that the signup of [alice] on [boot] leaves in the table,
    and the world it leaves behind. *)
Definition alice_row : User :=
  mkUser (Some 1) "a@x.com" "$2b$abcdlongenough1" (Some "A") (Some "B")
         (Some (Dt 1000)) (Some (Dt 1001)).

Definition registered : World :=
  mkWorld {[1 := alice_row]} [] 5000 1000 1001 (fun _ => "$2b$abcd") 1 [].

(** The same world, the server failing at the second round trip. *)
Definition flaky : World := set_faults registered [false; true].

(** A world whose only row holds a text that is not a hash. *)
Definition corrupt_row : User := set_password alice_row "plaintext".
Definition corrupted : World := set_table registered {[1 := corrupt_row]}.

Definition stranger_creds : Credentials := mkCredentials "hacker" "hackerpassword".
Definition wrong_creds : Credentials := mkCredentials "a@x.com" "wrongpassword".

Definition only_first_name : UpdateRequest := mkUpdateRequest None None (Some "Z").
Definition no_fields : UpdateRequest := mkUpdateRequest None None None.

End Demo.

(** * Properties *)

(** ** The table: queries and keys *)

Lemma find_email_Some e (t : gmap Z User) u :
  find_email e t = Some u -> exists k, t !! k = Some u /\ email u = e.
Proof.
  unfold find_email. intros Hf.
  apply fmap_Some in Hf as [[i [k u']] [Hf ->]].
  apply list_find_Some in Hf as (Hl & He & _).
  exists k. split; [|exact He].
  apply elem_of_map_to_list. eapply list_elem_of_lookup_2, Hl.
Qed.

Lemma find_email_None e (t : gmap Z User) :
  find_email e t = None <-> forall k u, t !! k = Some u -> email u <> e.
Proof.
  unfold find_email. rewrite fmap_None, list_find_None, Forall_forall. split.
  - intros Hall k u Hk. apply (Hall (k, u)). by apply elem_of_map_to_list.
  - intros Hall [k u] Hin. apply (Hall k u). by apply elem_of_map_to_list.
Qed.

Lemma find_email_is_Some e (t : gmap Z User) k u :
  t !! k = Some u -> email u = e -> is_Some (find_email e t).
Proof.
  intros Hk He. destruct (find_email e t) eqn:Hf; [by eexists|].
  exfalso. eapply find_email_None; eauto.
Qed.

Lemma find_email_unique (t : gmap Z User) k u :
  unique_email t -> t !! k = Some u -> find_email (email u) t = Some u.
Proof.
  intros Hu Hk.
  destruct (find_email_is_Some (email u) t k u Hk eq_refl) as [u' Hf].
  rewrite Hf. apply find_email_Some in Hf as (k' & Hk' & He).
  assert (k' = k) as -> by (eapply Hu; eauto).
  congruence.
Qed.

Lemma foldr_max_init (l : list Z) a : a <= foldr Z.max a l.
Proof. induction l as [|x l IH]; simpl; lia. Qed.

Lemma foldr_max_ge (l : list Z) a k : k ∈ a :: l -> k <= foldr Z.max a l.
Proof.
  intros [Ha|Hin]%elem_of_cons.
  - rewrite Ha. apply foldr_max_init.
  - induction l as [|x l IH]; simpl.
    + by apply not_elem_of_nil in Hin.
    + apply elem_of_cons in Hin as [Hx|Hin]; [lia|].
      specialize (IH Hin). lia.
Qed.

Lemma foldr_max_in (l : list Z) a : foldr Z.max a l ∈ a :: l.
Proof.
  induction l as [|x l IH]; simpl.
  - apply list_elem_of_here.
  - destruct (Z.max_spec x (foldr Z.max a l)) as [[_ ->]|[_ ->]].
    + apply elem_of_cons in IH as [->|IH]; [apply list_elem_of_here|].
      by do 2 apply list_elem_of_further.
    + apply list_elem_of_further, list_elem_of_here.
Qed.

Lemma key_in_keys (t : gmap Z User) k u :
  t !! k = Some u -> k ∈ (map_to_list t).*1.
Proof.
  intros Hk. apply list_elem_of_fmap. exists (k, u). split; [done|].
  by apply elem_of_map_to_list.
Qed.

Lemma keys_in_table (t : gmap Z User) k :
  k ∈ (map_to_list t).*1 -> is_Some (t !! k).
Proof.
  intros ([k' u] & -> & Hin)%list_elem_of_fmap. exists u.
  by apply elem_of_map_to_list.
Qed.

(** The key given by the store is never in use. *)
Lemma fresh_id_fresh (t : gmap Z User) : t !! fresh_id t = None.
Proof.
  destruct (t !! fresh_id t) as [u|] eqn:Hk; [|done].
  exfalso. revert Hk. unfold fresh_id.
  destruct ((map_to_list t).*1) as [|k ks] eqn:Hkeys.
  - intros Hk%key_in_keys. rewrite Hkeys in Hk. by apply not_elem_of_nil in Hk.
  - simpl. destruct (foldr Z.max k ks <? max_rowid)%Z.
    + intros Hk%key_in_keys. rewrite Hkeys in Hk.
      apply foldr_max_ge in Hk. lia.
    + destruct (head _) as [c|] eqn:Hc; simpl.
      * apply head_Some_elem_of, list_elem_of_filter in Hc as [Hfree _].
        congruence.
      * intros Hk%key_in_keys. rewrite Hkeys in Hk.
        apply foldr_max_ge in Hk. lia.
Qed.

(** The rule of the store away from the largest integer: 1 in an empty
    table, the successor of the largest key otherwise. *)
Lemma fresh_id_rule (t : gmap Z User) :
  (t = ∅ -> fresh_id t = 1) /\
  (forall m, is_Some (t !! m) -> (forall k, is_Some (t !! k) -> k <= m) ->
     m < max_rowid -> fresh_id t = m + 1).
Proof.
  split.
  - intros ->. unfold fresh_id. by rewrite map_to_list_empty.
  - intros m [u Hm] Hmax Hlt. unfold fresh_id.
    destruct ((map_to_list t).*1) as [|k ks] eqn:Hkeys.
    + apply key_in_keys in Hm. rewrite Hkeys in Hm.
      by apply not_elem_of_nil in Hm.
    + simpl. assert (foldr Z.max k ks = m) as ->.
      { apply Z.le_antisymm.
        - apply Hmax, keys_in_table. rewrite Hkeys. apply foldr_max_in.
        - apply foldr_max_ge. rewrite <- Hkeys. by eapply key_in_keys. }
      by apply Z.ltb_lt in Hlt as ->.
Qed.

Lemma wf_table_empty : wf_table ∅.
Proof.
  split; intros k; intros; by rewrite lookup_empty in *.
Qed.

(** ** What the functions of [src/db.py] compute *)

Ltac munfold :=
  unfold try_except, mbind, M_bind, mret, M_ret, raise, lift,
         get_world, put_world, datetime_now, round_trip in *.

Lemma table_after_trip w : table (after_trip w) = table w.
Proof. reflexivity. Qed.

Lemma checkpw_log_after_trip w : checkpw_log (after_trip w) = checkpw_log w.
Proof. reflexivity. Qed.

(** A lookup never raises: a failing round trip reads as "not found". *)
Lemma get_user_from_email_eq e w :
  get_user_from_email e w =
  (Ret (if server_down w then None else find_email e (table w)), after_trip w).
Proof.
  unfold get_user_from_email, session_exec_select_email. munfold.
  destruct (server_down w); simpl; [done|].
  by destruct (find_email e (table w)).
Qed.

Lemma health_check_eq w :
  health_check w =
  (Ret (if server_down w then unavailable_503 else ok_200), after_trip w).
Proof.
  unfold health_check, check_connection. munfold.
  by destruct (server_down w).
Qed.

Lemma create_user_eq new_user w :
  create_user new_user w =
  (Ret (insertable new_user w),
   if insertable new_user w then inserted new_user w else after_trip w).
Proof.
  unfold create_user, session_add_commit, insertable, inserted, stored_row,
    insert_key, column_value, bindable, bound_stamp.
  munfold.
  destruct (server_down w); simpl; [done|].
  destruct (account_created new_user) as [[c|j]|]; simpl; try done;
    (destruct (account_updated new_user) as [[m|j']|]; simpl; try done;
     (destruct (rowid_in_range _); simpl; [|done];
      destruct (first_name new_user), (last_name new_user); simpl; try done;
      destruct (table w !! _); simpl; [done|];
      by destruct (find_email _ _))).
Qed.

Lemma insertable_true new_user w :
  insertable new_user w = true <->
  server_down w = false /\
  bindable (account_created new_user) = true /\
  bindable (account_updated new_user) = true /\
  rowid_in_range (insert_key new_user w) = true /\
  is_Some (first_name new_user) /\
  is_Some (last_name new_user) /\
  table w !! insert_key new_user w = None /\
  find_email (email new_user) (table w) = None.
Proof.
  unfold insertable.
  destruct (server_down w), (bindable (account_created new_user)),
    (bindable (account_updated new_user)),
    (rowid_in_range (insert_key new_user w)),
    (first_name new_user), (last_name new_user),
    (table w !! insert_key new_user w), (find_email (email new_user) (table w));
    split; try discriminate; try done;
    intros (? & ? & ? & ? & [? ?] & [? ?] & ? & ?); discriminate.
Qed.

Lemma merged_fields old user now :
  merged old user now =
  mkUser (id old) (email old) (password user) (first_name user) (last_name user)
         (account_created old) (Some (Dt now)).
Proof. reflexivity. Qed.

Lemma update_user_with_id_Some user_id user w res w' :
  update_user_with_id user_id user w = (Ret (Some res), w') ->
  exists k old j,
    user_id = Some k /\ table w !! k = Some old /\ id old = Some j /\
    res = merged old user (clock w) /\
    w' = set_table (trips3 w) (<[j := res]> (table w)) /\
    is_Some (first_name user) /\ is_Some (last_name user).
Proof.
  unfold update_user_with_id, session_get, session_commit, session_refresh.
  destruct user_id as [k|]; munfold; simpl; [|done].
  destruct (server_down w) eqn:Hd1; simpl; [done|].
  destruct (table w !! k) as [old|] eqn:Hold; simpl; [|done].
  destruct (id old) as [j|] eqn:Hj; simpl; [|done].
  destruct (server_down (after_trip w)); simpl; [done|].
  destruct (first_name user) as [fn|] eqn:Hfn; simpl; [|done].
  destruct (last_name user) as [ln|] eqn:Hln; simpl; [|done].
  destruct (server_down (set_table _ _)); simpl; [done|].
  rewrite lookup_insert_eq. simpl.
  intros [= <- <-].
  exists k, old, j. unfold merged; simpl. rewrite Hj, Hfn, Hln.
  repeat split; eauto.
Qed.

(** An update never raises. *)
Lemma update_user_with_id_returns user_id user w :
  exists res w', update_user_with_id user_id user w = (Ret res, w').
Proof.
  unfold update_user_with_id, try_except.
  match goal with |- context [match ?b w with _ => _ end] =>
    destruct (b w) as [[a|e] w1] end; eauto.
Qed.

Lemma update_user_with_id_ok k old user w :
  table w !! k = Some old -> id old = Some k ->
  is_Some (first_name user) -> is_Some (last_name user) ->
  faults w = [] ->
  update_user_with_id (Some k) user w =
  (Ret (Some (merged old user (clock w))),
   set_table (trips3 w) (<[k := merged old user (clock w)]> (table w))).
Proof.
  intros Hold Hid [fn Hfn] [ln Hln] Hf.
  unfold update_user_with_id, session_get, session_commit, session_refresh.
  munfold. unfold server_down, trips3, after_trip. simpl.
  rewrite Hf. simpl. rewrite Hold. simpl. rewrite Hid, Hfn, Hln. simpl.
  rewrite lookup_insert_eq. simpl.
  unfold merged. rewrite Hfn, Hln. reflexivity.
Qed.

(** ** The handlers of [src/api.py] *)

Lemma bind_apply {A B} (m : M A) (f : A -> M B) (w : World) :
  (m ≫= f) w =
  match m w with
  | (Ret a, w') => f a w'
  | (Raise e, w') => (Raise e, w')
  end.
Proof. reflexivity. Qed.

Section HandlerFacts.
Context `{Bcrypt}.

(** The three credential-checked handlers, when the lookup finds nobody. *)
Lemma no_user_unauthorized credentials w :
  (if server_down w then None
   else find_email (username credentials) (table w)) = None ->
  login credentials w = (Ret unauthorized, after_trip w) /\
  get_current_user credentials w = (Ret unauthorized, after_trip w) /\
  (forall r, update_user credentials r w = (Ret unauthorized, after_trip w)).
Proof.
  intros Hn. unfold login, get_current_user, update_user.
  repeat split; intros; rewrite bind_apply, get_user_from_email_eq, Hn; done.
Qed.

(** The same handlers up to the password comparison, when the lookup
    finds [u]. *)
Lemma login_found credentials w u :
  server_down w = false ->
  find_email (username credentials) (table w) = Some u ->
  login credentials w =
  match checkpw (encode_utf8 (cred_password credentials))
                (encode_utf8 (password u)) with
  | Ret true => (Ret ok_200, compared credentials u w)
  | Ret false => (Ret unauthorized, compared credentials u w)
  | Raise e => (Raise e, compared credentials u w)
  end.
Proof.
  intros Hd Hf. unfold login.
  rewrite bind_apply, get_user_from_email_eq, Hd, Hf.
  rewrite bind_apply. unfold call_checkpw, compared. simpl.
  by destruct (checkpw _ _) as [[|]|].
Qed.

Lemma get_current_user_found credentials w u :
  server_down w = false ->
  find_email (username credentials) (table w) = Some u ->
  get_current_user credentials w =
  match checkpw (encode_utf8 (cred_password credentials))
                (encode_utf8 (password u)) with
  | Ret true =>
      (match safe_dict u with
       | Ret d => Ret (mkResponse 200 [] (Some d))
       | Raise e => Raise e
       end, compared credentials u w)
  | Ret false => (Ret unauthorized, compared credentials u w)
  | Raise e => (Raise e, compared credentials u w)
  end.
Proof.
  intros Hd Hf. unfold get_current_user.
  rewrite bind_apply, get_user_from_email_eq, Hd, Hf.
  rewrite bind_apply. unfold call_checkpw, compared. simpl.
  destruct (checkpw _ _) as [[|]|]; try done.
  rewrite bind_apply. unfold lift. by destruct (safe_dict u).
Qed.

Lemma update_user_found_reject credentials r w u :
  server_down w = false ->
  find_email (username credentials) (table w) = Some u ->
  checkpw (encode_utf8 (cred_password credentials))
          (encode_utf8 (password u)) <> Ret true ->
  update_user credentials r w =
  match checkpw (encode_utf8 (cred_password credentials))
                (encode_utf8 (password u)) with
  | Ret _ => (Ret unauthorized, compared credentials u w)
  | Raise e => (Raise e, compared credentials u w)
  end.
Proof.
  intros Hd Hf Hc. unfold update_user.
  rewrite bind_apply, get_user_from_email_eq, Hd, Hf.
  rewrite bind_apply. unfold call_checkpw, compared. simpl.
  by destruct (checkpw _ _) as [[|]|].
Qed.

End HandlerFacts.

Section UpdateFacts.
Context `{Bcrypt}.

Lemma update_user_200 credentials new_user w r w' :
  update_user credentials new_user w = (Ret r, w') ->
  status_code r = 200 ->
  exists u k old j pw,
    server_down w = false /\
    find_email (username credentials) (table w) = Some u /\
    checkpw (encode_utf8 (cred_password credentials))
            (encode_utf8 (password u)) = Ret true /\
    id u = Some k /\ table w !! k = Some old /\ id old = Some j /\
    next_password new_user u w pw /\
    table w' =
      <[j := mkUser (id old) (email old) pw
                    (next_first_name new_user u) (next_last_name new_user u)
                    (account_created old) (Some (Dt (clock w)))]> (table w).
Proof.
  intros Hu Hs. unfold update_user in Hu.
  rewrite bind_apply, get_user_from_email_eq in Hu.
  destruct (server_down w) eqn:Hd.
  { injection Hu as <- <-. discriminate Hs. }
  destruct (find_email _ _) as [u|] eqn:Hf.
  2:{ injection Hu as <- <-. discriminate Hs. }
  rewrite bind_apply in Hu. unfold call_checkpw in Hu.
  destruct (checkpw _ _) as [[|]|] eqn:Hc; simpl in Hu.
  2:{ injection Hu as <- <-. discriminate Hs. }
  2:{ discriminate Hu. }
  rewrite bind_apply in Hu.
  fold (next_first_name new_user u) in Hu.
  fold (next_last_name new_user u) in Hu.
  assert (forall pw w2,
    table w2 = table w -> clock w2 = clock w ->
    (w0 ← get_world;
     res ← update_user_with_id (id u)
             (User_of_names_password w0 (next_first_name new_user u)
                (next_last_name new_user u) pw);
     match res with
     | Some _ => mret (mkResponse 200 [] None)
     | None => mret unauthorized
     end) w2 = (Ret r, w') ->
    exists k old j,
      id u = Some k /\ table w !! k = Some old /\ id old = Some j /\
      table w' =
        <[j := mkUser (id old) (email old) pw
                      (next_first_name new_user u) (next_last_name new_user u)
                      (account_created old) (Some (Dt (clock w)))]> (table w))
    as Hstore.
  { intros pw w2 Ht Hcl Hk. rewrite bind_apply in Hk. simpl in Hk.
    rewrite bind_apply in Hk.
    destruct (update_user_with_id _ _ w2) as [[[res|]|e] w3] eqn:Hupd.
    - apply update_user_with_id_Some in Hupd
        as (k & old & j & Hk1 & Hk2 & Hk3 & -> & -> & _).
      rewrite Ht in Hk2. rewrite Ht, Hcl in Hk.
      injection Hk as <- <-.
      exists k, old, j. repeat split; done.
    - injection Hk as <- <-. discriminate Hs.
    - discriminate Hk. }
  destruct (req_password new_user) as [p|] eqn:Hp.
  - change (negb (p =? "")%string) with (truthy (Some p)) in Hu.
    destruct (truthy (Some p)) eqn:Ht.
    + rewrite bind_apply in Hu. unfold gensalt in Hu. simpl in Hu.
      rewrite bind_apply in Hu. unfold lift in Hu.
      destruct (hashpw _ _) as [h|e] eqn:Hh; [|discriminate Hu].
      apply Hstore in Hu as (k & old & j & ? & ? & ? & ?); [|done..].
      exists u, k, old, j, (decode_utf8 h). repeat split; try done.
      right. exists p, h. by rewrite Hp.
    + apply Hstore in Hu as (k & old & j & ? & ? & ? & ?); [|done..].
      exists u, k, old, j, (password u). repeat split; try done.
      left. by rewrite Hp.
  - apply Hstore in Hu as (k & old & j & ? & ? & ? & ?); [|done..].
    exists u, k, old, j, (password u). repeat split; try done.
    left. by rewrite Hp.
Qed.

Lemma next_names_present new_user (u : User) :
  is_Some (first_name u) -> is_Some (last_name u) ->
  is_Some (next_first_name new_user u) /\ is_Some (next_last_name new_user u).
Proof.
  intros Hfn Hln. unfold next_first_name, next_last_name. split.
  - destruct (req_first_name new_user); simpl; [|done].
    destruct (negb _); [by eexists|done].
  - destruct (req_last_name new_user); simpl; [|done].
    destruct (negb _); [by eexists|done].
Qed.

(** With a reachable server, a well-formed table and accepted
    credentials, the update goes through. *)
Lemma update_user_ok credentials new_user w u pw :
  wf_table (table w) -> faults w = [] ->
  find_email (username credentials) (table w) = Some u ->
  checkpw (encode_utf8 (cred_password credentials))
          (encode_utf8 (password u)) = Ret true ->
  next_password new_user u w pw ->
  exists k w',
    table w !! k = Some u /\
    update_user credentials new_user w = (Ret ok_200, w') /\
    table w' =
      <[k := mkUser (id u) (email u) pw
                    (next_first_name new_user u) (next_last_name new_user u)
                    (account_created u) (Some (Dt (clock w)))]> (table w).
Proof.
  intros [Hkey _ Hnames] Hfl Hf Hc Hpw.
  destruct (find_email_Some _ _ _ Hf) as (k & Hk & _).
  pose proof (Hkey _ _ Hk) as Hid.
  destruct (Hnames _ _ Hk) as [Hfn Hln].
  destruct (next_names_present new_user u Hfn Hln) as [Hfn' Hln'].
  assert (server_down w = false) as Hd by (unfold server_down; by rewrite Hfl).
  exists k.
  assert (forall w2,
    table w2 = table w -> clock w2 = clock w -> faults w2 = [] ->
    exists w',
      (w0 ← get_world;
       res ← update_user_with_id (id u)
               (User_of_names_password w0 (next_first_name new_user u)
                  (next_last_name new_user u) pw);
       match res with
       | Some _ => mret (mkResponse 200 [] None)
       | None => mret unauthorized
       end) w2 = (Ret ok_200, w') /\
      table w' =
        <[k := mkUser (id u) (email u) pw
                      (next_first_name new_user u) (next_last_name new_user u)
                      (account_created u) (Some (Dt (clock w)))]> (table w))
    as Hstore.
  { intros w2 Ht Hcl Hf2. rewrite bind_apply. simpl. rewrite bind_apply.
    rewrite Hid.
    rewrite (update_user_with_id_ok k u); [|by rewrite ?Ht..].
    eexists. split; [reflexivity|]. simpl. rewrite Ht, Hcl.
    rewrite merged_fields. simpl. by rewrite Hid. }
  unfold update_user.
  rewrite bind_apply, get_user_from_email_eq, Hd, Hf.
  rewrite bind_apply. unfold call_checkpw. rewrite Hc.
  rewrite bind_apply.
  fold (next_first_name new_user u). fold (next_last_name new_user u).
  destruct Hpw as [[Ht ->]|(p & h & Hp & Ht & Hh & ->)].
  - destruct (Hstore (compared credentials u w)) as (w' & Hw' & Htab);
      [done|done|by (simpl; rewrite Hfl)|].
    exists w'. split; [done|]. split; [|done].
    rewrite <- Hw'. unfold compared.
    destruct (req_password new_user) as [p|]; [|done].
    by rewrite Ht.
  - destruct (Hstore (set_draws (compared credentials u w) (S (draws w))))
      as (w' & Hw' & Htab); [done|done|by (simpl; rewrite Hfl)|].
    exists w'. split; [done|]. split; [|done].
    rewrite <- Hw'. rewrite Hp, Ht.
    rewrite bind_apply. unfold gensalt. simpl.
    rewrite bind_apply. unfold lift. simpl in Hh. by rewrite Hh.
Qed.

End UpdateFacts.

(** ** The invariant of the table *)

Lemma inserted_wf new_user w :
  wf_table (table w) -> insertable new_user w = true ->
  wf_table (table (inserted new_user w)).
Proof.
  intros [Hkey Huniq Hnames]
    (_ & _ & _ & _ & Hfn & Hln & Hfree & Hmail)%insertable_true.
  pose proof (proj1 (find_email_None _ _) Hmail) as Hne.
  unfold inserted, stored_row; simpl. set (key := insert_key new_user w) in *.
  split.
  - intros k u. rewrite lookup_insert. case_decide as Hk.
    + intros [= <-]. by subst.
    + apply Hkey.
  - intros k1 k2 u1 u2. rewrite !lookup_insert.
    repeat case_decide; subst; intros H1 H2 He; simplify_eq; simpl in *.
    + done.
    + exfalso. eapply Hne; eauto.
    + exfalso. eapply Hne; eauto.
    + eapply Huniq; eauto.
  - intros k u. rewrite lookup_insert. case_decide as Hk.
    + by intros [= <-].
    + apply Hnames.
Qed.

Lemma create_user_wf new_user w res w' :
  create_user new_user w = (res, w') ->
  wf_table (table w) -> wf_table (table w').
Proof.
  rewrite create_user_eq. intros [= <- <-] Hwf.
  destruct (insertable new_user w) eqn:Hins; [|done].
  by apply inserted_wf.
Qed.

(** What an update can do to the table, whatever it returns: nothing, or
    overwrite one row with its merge. *)
Lemma update_user_with_id_table user_id user w res w' :
  update_user_with_id user_id user w = (res, w') ->
  table w' = table w \/
  exists k old j,
    user_id = Some k /\ table w !! k = Some old /\ id old = Some j /\
    is_Some (first_name user) /\ is_Some (last_name user) /\
    table w' = <[j := merged old user (clock w)]> (table w).
Proof.
  unfold update_user_with_id, session_get, session_commit, session_refresh.
  destruct user_id as [k|]; munfold; simpl; [|intros [= <- <-]; by left].
  destruct (server_down w) eqn:Hd1; simpl; [intros [= <- <-]; by left|].
  destruct (table w !! k) as [old|] eqn:Hold; simpl; [|intros [= <- <-]; by left].
  destruct (id old) as [j|] eqn:Hj; simpl; [|intros [= <- <-]; by left].
  destruct (server_down (after_trip w)); simpl; [intros [= <- <-]; by left|].
  destruct (first_name user) as [fn|] eqn:Hfn; simpl; [|intros [= <- <-]; by left].
  destruct (last_name user) as [ln|] eqn:Hln; simpl; [|intros [= <- <-]; by left].
  assert (is_Some (Some fn) /\ is_Some (Some ln)) as [? ?] by (split; by eexists).
  destruct (server_down (set_table _ _)); simpl.
  - intros [= <- <-]. right. exists k, old, j. unfold merged. rewrite Hfn, Hln.
    by repeat split.
  - rewrite lookup_insert_eq. simpl. intros [= <- <-].
    right. exists k, old, j. unfold merged. rewrite Hfn, Hln.
    by repeat split.
Qed.

Lemma merged_wf (t : gmap Z User) k old user now :
  wf_table t -> t !! k = Some old ->
  is_Some (first_name user) -> is_Some (last_name user) ->
  wf_table (<[k := merged old user now]> t).
Proof.
  intros [Hkey Huniq Hnames] Hold Hfn Hln. rewrite merged_fields. split.
  - intros k' u. rewrite lookup_insert. case_decide.
    + intros [= <-]. simpl. subst. by apply Hkey.
    + apply Hkey.
  - intros k1 k2 u1 u2. rewrite !lookup_insert.
    repeat case_decide; subst; intros H1 H2 He; simplify_eq; simpl in *;
      eauto.
  - intros k' u. rewrite lookup_insert. case_decide.
    + by intros [= <-].
    + apply Hnames.
Qed.

Lemma update_user_with_id_wf user_id user w res w' :
  update_user_with_id user_id user w = (res, w') ->
  wf_table (table w) -> wf_table (table w').
Proof.
  intros Hu Hwf.
  destruct (update_user_with_id_table _ _ _ _ _ Hu)
    as [->|(k & old & j & -> & Hold & Hj & Hfn & Hln & ->)]; [done|].
  pose proof (wf_keyed _ Hwf _ _ Hold) as Hk.
  assert (j = k) as -> by congruence.
  by apply merged_wf.
Qed.

(** ** The worlds of the examples *)

Lemma wf_table_singleton k (u : User) :
  id u = Some k -> is_Some (first_name u) -> is_Some (last_name u) ->
  wf_table ({[k := u]} : gmap Z User).
Proof.
  intros Hid Hfn Hln. split.
  - intros k' u' [<- <-]%lookup_singleton_Some. done.
  - intros k1 k2 u1 u2 [<- <-]%lookup_singleton_Some
      [<- <-]%lookup_singleton_Some _. done.
  - intros k' u' [<- <-]%lookup_singleton_Some. done.
Qed.

Lemma registered_rows k u :
  table Demo.registered !! k = Some u -> k = 1 /\ u = Demo.alice_row.
Proof.
  change (table Demo.registered) with ({[1 := Demo.alice_row]} : gmap Z User).
  by intros [<- <-]%lookup_singleton_Some.
Qed.

Lemma registered_wf : wf_table (table Demo.registered).
Proof. apply wf_table_singleton; [done|by eexists..]. Qed.

Section DemoRuns.
Local Existing Instance Demo.demo_bcrypt.

Example signup_alice :
post_signup Demo.alice Demo.boot = (Ret (mkResponse 201 [] None), Demo.registered).
Proof. vm_compute. reflexivity. Qed.

Example signup_alice_again :
(post_signup Demo.alice Demo.registered).1 = Ret (mkResponse 503 [] None).
Proof. vm_compute. reflexivity. Qed.

Example login_alice :
(login Demo.alice_creds Demo.registered).1 = Ret ok_200.
Proof. vm_compute. reflexivity. Qed.

Example login_wrong_password :
(login Demo.wrong_creds Demo.registered).1 = Ret unauthorized.
Proof. vm_compute. reflexivity. Qed.

Example current_user_alice :
  (get_current_user Demo.alice_creds Demo.registered).1 =
  Ret (mkResponse 200 []
         (Some [("id", JInt 1); ("email", JStr "a@x.com");
                ("first_name", JStr "A"); ("last_name", JStr "B");
                ("account_created", JIso 1000); ("account_updated", JIso 1001)])).
Proof. vm_compute. reflexivity. Qed.

(** The scenario of [test_update_user]: all three fields are replaced, and
    the new password opens the account. *)
Example update_then_read :
  let put := update_user Demo.alice_creds
               (mkUpdateRequest (Some "updatedpassword") (Some "updated_last_name")
                                (Some "updated_first_name")) in
  let get := get_current_user (mkCredentials "a@x.com" "updatedpassword") in
  (r ← put; b ← get; mret (status_code r, content b)) Demo.registered
  = (Ret (200,
          Some [("id", JInt 1); ("email", JStr "a@x.com");
                ("first_name", JStr "updated_first_name");
                ("last_name", JStr "updated_last_name");
                ("account_created", JIso 1000); ("account_updated", JIso 5000)]),
     mkWorld {[1 := mkUser (Some 1) "a@x.com" "$2b$abcdupdatedpassword"
                       (Some "updated_first_name") (Some "updated_last_name")
                       (Some (Dt 1000)) (Some (Dt 5000))]}
             [] 5000 1000 1001 (fun _ => "$2b$abcd") 2
             [("longenough1", "$2b$abcdlongenough1");
              ("updatedpassword", "$2b$abcdupdatedpassword")]).
Proof. vm_compute. reflexivity. Qed.

(** The old password no longer opens it. *)
Example update_then_old_password :
  (r ← update_user Demo.alice_creds
         (mkUpdateRequest (Some "updatedpassword") None None);
   login Demo.alice_creds) Demo.registered
  = (Ret unauthorized,
     mkWorld {[1 := mkUser (Some 1) "a@x.com" "$2b$abcdupdatedpassword"
                       (Some "A") (Some "B") (Some (Dt 1000)) (Some (Dt 5000))]}
             [] 5000 1000 1001 (fun _ => "$2b$abcd") 2
             [("longenough1", "$2b$abcdlongenough1");
              ("longenough1", "$2b$abcdupdatedpassword")]).
Proof. vm_compute. reflexivity. Qed.

End DemoRuns.

(** * The claims *)

(** ** Authentication *)

(** C1.  Authentication of claimed credentials.  When no row of the table
    carries the claimed email, [GET /login/], [GET /me] and [PUT /me] all
    answer 401 with the header [WWW-Authenticate: Basic], and
    [bcrypt.checkpw] was not called.  When a row [u] carries the email
    (and the lookup reaches the server), the stored hash of [u] is compared
    once with the claimed password: if the comparison is false the three
    handlers answer the same 401; if it is true, login answers 200, the
    current-user handler answers with the projection of that very row [u],
    and a successful update overwrites the row of [u] and no other. *)
Theorem C1_authenticate `{Bcrypt} (credentials : Credentials) (w : World) :
  ((forall k u, table w !! k = Some u -> email u <> username credentials) ->
     login credentials w = (Ret unauthorized, after_trip w) /\
     get_current_user credentials w = (Ret unauthorized, after_trip w) /\
     (forall r, update_user credentials r w = (Ret unauthorized, after_trip w)) /\
     checkpw_log (after_trip w) = checkpw_log w /\
     status_code unauthorized = 401 /\
     headers unauthorized = [("WWW-Authenticate", "Basic")])
  /\
  (forall k u b,
     wf_table (table w) ->
     table w !! k = Some u -> email u = username credentials ->
     server_down w = false ->
     checkpw (encode_utf8 (cred_password credentials))
             (encode_utf8 (password u)) = Ret b ->
     if b then
       login credentials w = (Ret ok_200, compared credentials u w) /\
       get_current_user credentials w =
         (match safe_dict u with
          | Ret d => Ret (mkResponse 200 [] (Some d))
          | Raise e => Raise e
          end, compared credentials u w) /\
       (forall r resp w',
          update_user credentials r w = (Ret resp, w') ->
          status_code resp = 200 ->
          exists new, email new = email u /\ table w' = <[k := new]> (table w))
     else
       login credentials w = (Ret unauthorized, compared credentials u w) /\
       get_current_user credentials w =
         (Ret unauthorized, compared credentials u w) /\
       (forall r, update_user credentials r w =
                  (Ret unauthorized, compared credentials u w))).
Proof.
  split.
  - intros Hnone.
    assert ((if server_down w then None
             else find_email (username credentials) (table w)) = None) as Hn.
    { destruct (server_down w); [done|]. by apply find_email_None. }
    destruct (no_user_unauthorized credentials w Hn) as (Hl & Hg & Hu).
    by repeat split.
  - intros k u b Hwf Hk He Hd Hc.
    assert (find_email (username credentials) (table w) = Some u) as Hf.
    { rewrite <- He. eapply find_email_unique; [apply Hwf|done]. }
    destruct b.
    + split; [|split].
      * by rewrite (login_found _ _ u), Hc.
      * by rewrite (get_current_user_found _ _ u), Hc.
      * intros r resp w' Hu Hs.
        destruct (update_user_200 _ _ _ _ _ Hu Hs)
          as (u' & k' & old & j & pw & _ & Hf' & _ & Hid & Hold & Hj & _ & Ht).
        assert (u' = u) as -> by congruence.
        pose proof (wf_keyed _ Hwf _ _ Hk) as Hku.
        assert (k' = k) as -> by congruence.
        assert (old = u) as -> by congruence.
        assert (j = k) as -> by congruence.
        eexists. split; [|exact Ht]. done.
    + split; [|split].
      * by rewrite (login_found _ _ u), Hc.
      * by rewrite (get_current_user_found _ _ u), Hc.
      * intros r. rewrite (update_user_found_reject _ _ _ u); try done.
        -- by rewrite Hc.
        -- by rewrite Hc.
Qed.

(** C1 at work: a stranger is turned away without any comparison, the
    right password of a registered user is accepted, a wrong one is not. *)
Lemma C1_authenticate_witness :
  (@login Demo.demo_bcrypt Demo.stranger_creds Demo.registered =
     (Ret unauthorized, after_trip Demo.registered)) /\
  (@login Demo.demo_bcrypt Demo.alice_creds Demo.registered =
     (Ret ok_200, compared Demo.alice_creds Demo.alice_row Demo.registered)) /\
  (@login Demo.demo_bcrypt Demo.wrong_creds Demo.registered =
     (Ret unauthorized, compared Demo.wrong_creds Demo.alice_row Demo.registered)).
Proof.
  split; [|split].
  - apply (@C1_authenticate Demo.demo_bcrypt Demo.stranger_creds Demo.registered).
    intros k u [-> ->]%registered_rows. discriminate.
  - apply (proj2 (@C1_authenticate Demo.demo_bcrypt Demo.alice_creds Demo.registered)
             1 Demo.alice_row true registered_wf);
      reflexivity.
  - apply (proj2 (@C1_authenticate Demo.demo_bcrypt Demo.wrong_creds Demo.registered)
             1 Demo.alice_row false registered_wf);
      reflexivity.
Defined.

(** ** Profile update *)

Lemma truthy_Some_nonempty s : s <> "" -> truthy (Some s) = true.
Proof. intros Hs. simpl. by apply negb_true_iff, String.eqb_neq. Qed.

(** C2.  Merge of a profile update.  On a well-formed table, when
    [PUT /me] answers 200 the row of the authenticated user was overwritten
    by a row in which every field the request does not supply
    ([first_name], [last_name], [password]) has its former value, a
    supplied name is stored, a supplied password is stored as its bcrypt
    hash under the next salt, and [account_updated] is the time of the
    call.  A request that supplies nothing, presented with accepted
    credentials to a reachable server, is answered 200 and changes
    [account_updated] alone. *)
Theorem C2_update_merge `{Bcrypt} (credentials : Credentials)
    (new_user : UpdateRequest) (w : World) :
  wf_table (table w) ->
  (forall r w',
     update_user credentials new_user w = (Ret r, w') ->
     status_code r = 200 ->
     exists k old new,
       table w !! k = Some old /\ email old = username credentials /\
       table w' = <[k := new]> (table w) /\
       (req_first_name new_user = None -> first_name new = first_name old) /\
       (req_last_name new_user = None -> last_name new = last_name old) /\
       (req_password new_user = None -> password new = password old) /\
       (forall s, req_first_name new_user = Some s -> s <> "" ->
          first_name new = Some s) /\
       (forall s, req_last_name new_user = Some s -> s <> "" ->
          last_name new = Some s) /\
       (forall p, req_password new_user = Some p -> p <> "" ->
          exists h, hashpw (encode_utf8 p) (entropy w (draws w)) = Ret h /\
                    password new = decode_utf8 h) /\
       account_updated new = Some (Dt (clock w)))
  /\
  (forall k old,
     table w !! k = Some old -> email old = username credentials ->
     faults w = [] ->
     checkpw (encode_utf8 (cred_password credentials))
             (encode_utf8 (password old)) = Ret true ->
     new_user = mkUpdateRequest None None None ->
     exists w',
       update_user credentials new_user w = (Ret ok_200, w') /\
       table w' = <[k := set_account_updated old (Some (Dt (clock w)))]> (table w)).
Proof.
  intros Hwf. split.
  - intros r w' Hu Hs.
    destruct (update_user_200 _ _ _ _ _ Hu Hs)
      as (u & k & old & j & pw & _ & Hf & _ & Hid & Hold & Hj & Hpw & Ht).
    destruct (find_email_Some _ _ _ Hf) as (k0 & Hk0 & He).
    pose proof (wf_keyed _ Hwf _ _ Hk0) as Hku.
    assert (k0 = k) as -> by congruence.
    assert (old = u) as -> by congruence.
    assert (j = k) as -> by congruence.
    eexists k, u, _. split; [done|]. split; [done|]. split; [exact Ht|].
    simpl. unfold next_first_name, next_last_name.
    repeat split.
    + by intros ->.
    + by intros ->.
    + intros Hp. destruct Hpw as [[_ ->]|(p & h & Hp' & _)]; [done|congruence].
    + intros s -> Hs'. by rewrite truthy_Some_nonempty.
    + intros s -> Hs'. by rewrite truthy_Some_nonempty.
    + intros p Hp Hne.
      destruct Hpw as [[Hfalse _]|(p' & h & Hp' & _ & Hh & ->)].
      * rewrite Hp, truthy_Some_nonempty in Hfalse; done.
      * assert (p' = p) as -> by congruence. by exists h.
  - intros k old Hold He Hfl Hc ->.
    assert (find_email (username credentials) (table w) = Some old) as Hf.
    { rewrite <- He. eapply find_email_unique; [apply Hwf|done]. }
    destruct (update_user_ok credentials (mkUpdateRequest None None None)
                w old (password old) Hwf Hfl Hf Hc) as (k' & w' & Hk' & Hu & Ht).
    { by left. }
    assert (k' = k) as ->.
    { pose proof (wf_keyed _ Hwf _ _ Hold). pose proof (wf_keyed _ Hwf _ _ Hk').
      congruence. }
    exists w'. split; [done|]. rewrite Ht. by destruct old.
Qed.

(** C2 at work: the stored user sends only a first name, then nothing. *)
Lemma C2_update_merge_witness :
  (exists w',
     @update_user Demo.demo_bcrypt Demo.alice_creds Demo.no_fields Demo.registered
       = (Ret ok_200, w') /\
     table w' = <[1 := set_account_updated Demo.alice_row (Some (Dt 5000))]>
                  (table Demo.registered)) /\
  (exists k old new,
     table Demo.registered !! k = Some old /\
     table (@update_user Demo.demo_bcrypt Demo.alice_creds Demo.only_first_name
              Demo.registered).2 = <[k := new]> (table Demo.registered) /\
     first_name new = Some "Z" /\ last_name new = last_name old /\
     password new = password old /\ account_updated new = Some (Dt 5000)).
Proof.
  split.
  - apply (proj2 (@C2_update_merge Demo.demo_bcrypt Demo.alice_creds Demo.no_fields
                    Demo.registered registered_wf) 1 Demo.alice_row);
      reflexivity.
  - destruct (proj1 (@C2_update_merge Demo.demo_bcrypt Demo.alice_creds
                       Demo.only_first_name Demo.registered registered_wf)
                ok_200
                (@update_user Demo.demo_bcrypt Demo.alice_creds Demo.only_first_name
                   Demo.registered).2)
      as (k & old & new & Hold & _ & Ht & _ & Hln & Hpw & Hfn & _ & _ & Hts).
    + vm_compute. reflexivity.
    + reflexivity.
    + exists k, old, new. repeat split; try done.
      * by apply (Hfn "Z").
      * by apply Hln.
      * by apply Hpw.
Defined.

(** C8.  Frame of an update.  When [update_user_with_id] returns a row,
    that row is the one now stored under the given key; its [id], [email]
    and [account_created] are those of the row stored there before, and
    every other row of the table is untouched. *)
Theorem C8_update_frame (user_id : Z) (user : User) (w : World)
    (old res : User) (w' : World) :
  keyed (table w) ->
  table w !! user_id = Some old ->
  update_user_with_id (Some user_id) user w = (Ret (Some res), w') ->
  table w' !! user_id = Some res /\
  id res = id old /\
  email res = email old /\
  account_created res = account_created old /\
  (forall k, k <> user_id -> table w' !! k = table w !! k).
Proof.
  intros Hkey Hold Hu.
  apply update_user_with_id_Some in Hu
    as (k & old' & j & [= <-] & Hold' & Hj & -> & -> & _).
  assert (old' = old) as -> by congruence.
  pose proof (Hkey _ _ Hold) as Hid.
  assert (j = user_id) as -> by congruence.
  simpl. rewrite lookup_insert_eq. repeat split; try done.
  intros k Hk. by rewrite lookup_insert_ne.
Qed.

(** C8 at work: the row of the stored user is given new names and a new
    hash. *)
Lemma C8_update_frame_witness :
  let patch := mkUser None "" "newhashedpassword" (Some "UpdatedFirstName")
                      (Some "UpdatedLastName") None None in
  let res := merged Demo.alice_row patch 5000 in
  let w' := (update_user_with_id (Some 1) patch Demo.registered).2 in
  table w' !! 1 = Some res /\
  id res = Some 1 /\ email res = "a@x.com" /\ account_created res = Some (Dt 1000) /\
  (forall k, k <> 1 -> table w' !! k = table Demo.registered !! k).
Proof.
  intros patch res w'.
  apply (C8_update_frame 1 patch Demo.registered Demo.alice_row res w').
  - apply registered_wf.
  - reflexivity.
  - vm_compute. reflexivity.
Defined.

(** ** The current-user projection *)

Lemma safe_dict_keys (u : User) d : safe_dict u = Ret d -> keys d = safe_keys.
Proof.
  unfold safe_dict.
  destruct (account_created u) as [[c|j]|],
           (account_updated u) as [[m|j']|]; try discriminate.
  by intros [= <-].
Qed.

(** C3 as stated fails: the body of a successful [GET /me] has a sixth
    member, [id], so its keys are not the five listed ones. *)
Lemma C3_counterexample :
  ~ (forall (B : Bcrypt) (credentials : Credentials) (w : World) k u,
       wf_table (table w) ->
       table w !! k = Some u -> email u = username credentials ->
       server_down w = false ->
       checkpw (encode_utf8 (cred_password credentials))
               (encode_utf8 (password u)) = Ret true ->
       exists d w',
         get_current_user credentials w = (Ret (mkResponse 200 [] (Some d)), w') /\
         keys d ≡ₚ listed_keys).
Proof.
  intros Hclaim.
  destruct (Hclaim Demo.demo_bcrypt Demo.alice_creds Demo.registered
              1 Demo.alice_row registered_wf eq_refl eq_refl eq_refl eq_refl)
    as (d & w' & Heq & Hperm).
  vm_compute in Heq. injection Heq as <- _.
  apply Permutation_length in Hperm. discriminate Hperm.
Qed.

(** C3, amended.  With accepted credentials, a reachable server and a row
    whose two timestamps are set, [GET /me] answers 200 and its body is the
    object with the six members [id], [email], [first_name], [last_name],
    [account_created], [account_updated], in this order, holding the values
    of the row.  Whatever the input, a body returned by the handler has
    exactly these six keys, and [password] is not one of them. *)
Theorem C3_current_user_projection `{Bcrypt} (credentials : Credentials) (w : World) :
  (forall k u c m,
     wf_table (table w) ->
     table w !! k = Some u -> email u = username credentials ->
     server_down w = false ->
     checkpw (encode_utf8 (cred_password credentials))
             (encode_utf8 (password u)) = Ret true ->
     account_created u = Some (Dt c) -> account_updated u = Some (Dt m) ->
     get_current_user credentials w =
     (Ret (mkResponse 200 []
             (Some [("id", json_of_int (id u));
                    ("email", JStr (email u));
                    ("first_name", json_of_str (first_name u));
                    ("last_name", json_of_str (last_name u));
                    ("account_created", JIso c);
                    ("account_updated", JIso m)])),
      compared credentials u w))
  /\
  (forall r w' d,
     get_current_user credentials w = (Ret r, w') ->
     content r = Some d ->
     keys d = safe_keys /\ "password" ∉ keys d).
Proof.
  split.
  - intros k u c m Hwf Hk He Hd Hc Hcr Hup.
    assert (find_email (username credentials) (table w) = Some u) as Hf.
    { rewrite <- He. eapply find_email_unique; [apply Hwf|done]. }
    rewrite (get_current_user_found _ _ u), Hc by done.
    unfold safe_dict. by rewrite Hcr, Hup.
  - intros r w' d Hg Hd.
    assert (keys d = safe_keys) as Hkeys.
    { unfold get_current_user in Hg.
      rewrite bind_apply, get_user_from_email_eq in Hg.
      destruct (if server_down w then None else _) as [u|].
      2:{ injection Hg as <- <-. discriminate Hd. }
      rewrite bind_apply in Hg. unfold call_checkpw in Hg.
      destruct (checkpw _ _) as [[|]|]; simpl in Hg.
      - rewrite bind_apply in Hg. unfold lift in Hg.
        destruct (safe_dict u) as [d'|] eqn:Hsd; [|discriminate Hg].
        injection Hg as <- <-. injection Hd as <-.
        by eapply safe_dict_keys.
      - injection Hg as <- <-. discriminate Hd.
      - discriminate Hg. }
    split; [done|]. rewrite Hkeys. unfold safe_keys.
    rewrite !elem_of_cons, elem_of_nil. intros Hin.
    repeat destruct Hin as [Hin|Hin]; discriminate || done.
Qed.

(** C3 (amended) at work on the stored user. *)
Lemma C3_current_user_projection_witness :
  @get_current_user Demo.demo_bcrypt Demo.alice_creds Demo.registered =
  (Ret (mkResponse 200 []
          (Some [("id", JInt 1); ("email", JStr "a@x.com");
                 ("first_name", JStr "A"); ("last_name", JStr "B");
                 ("account_created", JIso 1000);
                 ("account_updated", JIso 1001)])),
   compared Demo.alice_creds Demo.alice_row Demo.registered).
Proof.
  apply (proj1 (@C3_current_user_projection Demo.demo_bcrypt Demo.alice_creds
                  Demo.registered) 1 Demo.alice_row 1000 1001 registered_wf);
    reflexivity.
Defined.

(** ** Signup *)

Section SignupFacts.
Context `{Bcrypt}.

(** [signup] once the hash is known: the insert alone decides the answer. *)
Lemma signup_eq new_user w h :
  hashpw (encode_utf8 (password new_user)) (entropy w (draws w)) = Ret h ->
  let stored := set_password new_user (decode_utf8 h) in
  let w1 := set_draws w (S (draws w)) in
  signup new_user w =
  (Ret (if insertable stored w1 then created_201 else unavailable_503),
   if insertable stored w1 then inserted stored w1 else after_trip w1).
Proof.
  intros Hh stored w1. unfold signup.
  rewrite bind_apply. unfold gensalt.
  rewrite bind_apply. unfold lift. rewrite Hh.
  rewrite bind_apply, create_user_eq.
  fold stored. fold w1. by destruct (insertable stored w1).
Qed.

(** A [signup] that answers has hashed the password. *)
Lemma signup_hashed new_user w r w' :
  signup new_user w = (Ret r, w') ->
  exists h, hashpw (encode_utf8 (password new_user)) (entropy w (draws w)) = Ret h.
Proof.
  unfold signup. rewrite bind_apply. unfold gensalt.
  rewrite bind_apply. unfold lift.
  destruct (hashpw _ _) as [h|e]; [by exists h|discriminate].
Qed.

Lemma signup_wf new_user w res w' :
  signup new_user w = (res, w') ->
  wf_table (table w) -> wf_table (table w').
Proof.
  unfold signup. rewrite bind_apply. unfold gensalt.
  rewrite bind_apply. unfold lift.
  destruct (hashpw _ _) as [h|e]; [|by intros [= <- <-]].
  rewrite bind_apply.
  destruct (create_user _ _) as [[b|e] w2] eqn:Hc.
  - intros Hr Hwf.
    assert (w' = w2) as -> by (destruct b; by injection Hr).
    by eapply create_user_wf.
  - rewrite create_user_eq in Hc. discriminate Hc.
Qed.

End SignupFacts.

(** C5.  Status of a signup whose password was hashed to [h].  The answer
    is 201 exactly when the insert of the record succeeds and the bare 503
    otherwise: the same response whether the server is unreachable, the
    email is taken, the key is taken or is not a 64-bit integer, a name is
    missing or a timestamp is not a datetime.  When none of these holds the
    answer is 201 and the table has the new row.  In particular a signup
    for an email that is in the table is answered 503, so after a signup
    answered 201 every further signup with that email is answered 503 and
    leaves the table as it is. *)
Theorem C5_signup_status `{Bcrypt} (new_user : User) (w : World) (h : bytes) :
  hashpw (encode_utf8 (password new_user)) (entropy w (draws w)) = Ret h ->
  let stored := set_password new_user (decode_utf8 h) in
  let w1 := set_draws w (S (draws w)) in
  (forall res w2,
     create_user stored w1 = (Ret res, w2) ->
     signup new_user w = (Ret (if res then created_201 else unavailable_503), w2))
  /\
  (server_down w = true \/ first_name new_user = None \/ last_name new_user = None \/
   is_Some (table w !! insert_key new_user w) \/
   is_Some (find_email (email new_user) (table w)) \/
   rowid_in_range (insert_key new_user w) = false \/
   bindable (account_created new_user) = false \/
   bindable (account_updated new_user) = false ->
   signup new_user w = (Ret unavailable_503, after_trip w1))
  /\
  (server_down w = false -> is_Some (first_name new_user) ->
   is_Some (last_name new_user) ->
   table w !! insert_key new_user w = None ->
   find_email (email new_user) (table w) = None ->
   rowid_in_range (insert_key new_user w) = true ->
   bindable (account_created new_user) = true ->
   bindable (account_updated new_user) = true ->
   exists key row w',
     signup new_user w = (Ret created_201, w') /\
     (forall i, id new_user = Some i -> key = i) /\
     table w !! key = None /\
     table w' !! key = Some row /\
     email row = email new_user /\ password row = decode_utf8 h /\
     (forall k, k <> key -> table w' !! k = table w !! k))
  /\
  (forall r w' other h2,
     signup new_user w = (Ret r, w') -> status_code r = 201 ->
     email other = email new_user ->
     hashpw (encode_utf8 (password other)) (entropy w' (draws w')) = Ret h2 ->
     exists w'', signup other w' = (Ret unavailable_503, w'') /\
                 table w'' = table w').
Proof.
  intros Hh stored w1.
  pose proof (signup_eq new_user w h Hh) as Heq. cbv zeta in Heq.
  fold stored in Heq. fold w1 in Heq.
  split; [|split; [|split]].
  - intros res w2. rewrite create_user_eq. intros [= <- <-]. exact Heq.
  - intros Hfail. rewrite Heq.
    assert (insertable stored w1 = false) as ->; [|done].
    apply not_true_is_false. intros Hins%insertable_true.
    destruct Hins as (Hd & Hbc & Hbu & Hrange & [fn Hfn] & [ln Hln] & Hfree & Hmail).
    destruct Hfail as [Hf|[Hf|[Hf|[[x Hf]|[[x Hf]|[Hf|[Hf|Hf]]]]]]];
      [ change (server_down w1) with (server_down w) in Hd; congruence
      | change (first_name stored) with (first_name new_user) in Hfn; congruence
      | change (last_name stored) with (last_name new_user) in Hln; congruence
      | change (table w1 !! insert_key stored w1)
          with (table w !! insert_key new_user w) in Hfree; congruence
      | change (find_email (email stored) (table w1))
          with (find_email (email new_user) (table w)) in Hmail; congruence
      | change (insert_key stored w1) with (insert_key new_user w) in Hrange;
        congruence
      | change (account_created stored) with (account_created new_user) in Hbc;
        congruence
      | change (account_updated stored) with (account_updated new_user) in Hbu;
        congruence ].
  - intros Hd Hfn Hln Hfree Hmail Hrange Hbc Hbu. rewrite Heq.
    assert (insertable stored w1 = true) as -> by (by apply insertable_true).
    exists (insert_key new_user w), (stored_row stored w1), (inserted stored w1).
    split; [done|]. split; [unfold insert_key; by intros i ->|].
    split; [done|]. split; [apply lookup_insert_eq|].
    split; [done|]. split; [done|].
    intros k Hk. simpl. by rewrite lookup_insert_ne.
  - intros r w' other h2 Hs Hr He Hh2.
    rewrite Heq in Hs.
    destruct (insertable stored w1) eqn:Hins.
    2:{ injection Hs as <- <-. discriminate Hr. }
    injection Hs as <- <-.
    pose proof (signup_eq other _ h2 Hh2) as Heq2. cbv zeta in Heq2.
    assert (insertable (set_password other (decode_utf8 h2))
              (set_draws (inserted stored w1) (S (draws (inserted stored w1))))
            = false) as Hno.
    { apply not_true_is_false.
      intros (_ & _ & _ & _ & _ & _ & _ & Hmail)%insertable_true.
      simpl in Hmail.
      pose proof (proj1 (find_email_None _ _) Hmail
                    (insert_key stored w1) (stored_row stored w1)) as Hne.
      apply Hne.
      - apply lookup_insert_eq.
      - simpl. congruence. }
    rewrite Hno in Heq2. eexists. split; [exact Heq2|done].
Qed.

(** C5 at work: the first signup of [alice] is answered 201, the second
    one 503. *)
Lemma C5_signup_status_witness :
  (exists key row w',
     @signup Demo.demo_bcrypt (parse_User Demo.boot Demo.alice) Demo.boot =
       (Ret created_201, w') /\
     (forall i, id (parse_User Demo.boot Demo.alice) = Some i -> key = i) /\
     table Demo.boot !! key = None /\
     table w' !! key = Some row /\
     email row = "a@x.com" /\ password row = "$2b$abcdlongenough1" /\
     (forall k, k <> key -> table w' !! k = table Demo.boot !! k)) /\
  exists w'', @signup Demo.demo_bcrypt (parse_User Demo.registered Demo.alice)
                Demo.registered = (Ret unavailable_503, w'') /\
              table w'' = table Demo.registered.
Proof.
  pose proof (@C5_signup_status Demo.demo_bcrypt
                (parse_User Demo.boot Demo.alice) Demo.boot
                "$2b$abcdlongenough1" eq_refl) as (_ & _ & Hok & Htwice).
  split.
  - apply Hok; [reflexivity|by eexists|by eexists|reflexivity..].
  - apply (Htwice created_201 Demo.registered
             (parse_User Demo.registered Demo.alice) "$2b$abcdlongenough1");
      reflexivity.
Defined.



(** ** A stored value that is not a hash *)

(** C6 as stated fails: with a stored text that [bcrypt.checkpw] rejects by
    raising, [GET /login/] does not answer at all; the exception leaves
    the handler. *)
Lemma C6_counterexample :
  ~ (forall (B : Bcrypt) (credentials : Credentials) (w : World) k u e,
       wf_table (table w) ->
       table w !! k = Some u -> email u = username credentials ->
       server_down w = false ->
       checkpw (encode_utf8 (cred_password credentials))
               (encode_utf8 (password u)) = Raise e ->
       exists r w', login credentials w = (Ret r, w')).
Proof.
  intros Hclaim.
  destruct (Hclaim Demo.demo_bcrypt Demo.alice_creds Demo.corrupted
              1 Demo.corrupt_row ValueError) as (r & w' & Heq);
    [by apply wf_table_singleton; [|eexists..]|reflexivity..|].
  vm_compute in Heq. discriminate Heq.
Qed.

(** C6, amended.  None of the three credential-checked handlers catches
    what [bcrypt.checkpw] raises on the stored value: the exception leaves
    [login], [get_current_user] and [update_user] as it is, after the one
    comparison, with the table unchanged and no response built. *)
Theorem C6_checkpw_exception_propagates `{Bcrypt} (credentials : Credentials)
    (w : World) (k : Z) (u : User) (e : Exn) :
  wf_table (table w) ->
  table w !! k = Some u -> email u = username credentials ->
  server_down w = false ->
  checkpw (encode_utf8 (cred_password credentials))
          (encode_utf8 (password u)) = Raise e ->
  login credentials w = (Raise e, compared credentials u w) /\
  get_current_user credentials w = (Raise e, compared credentials u w) /\
  (forall r, update_user credentials r w = (Raise e, compared credentials u w)) /\
  table (compared credentials u w) = table w.
Proof.
  intros Hwf Hk He Hd Hc.
  assert (find_email (username credentials) (table w) = Some u) as Hf.
  { rewrite <- He. eapply find_email_unique; [apply Hwf|done]. }
  split; [|split; [|split]].
  - by rewrite (login_found _ _ u), Hc.
  - by rewrite (get_current_user_found _ _ u), Hc.
  - intros r. rewrite (update_user_found_reject _ _ _ u), Hc; try done.
    by rewrite Hc.
  - reflexivity.
Qed.

(** C6 (amended) at work on a row that holds a text in clear. *)
Lemma C6_checkpw_exception_propagates_witness :
  @login Demo.demo_bcrypt Demo.alice_creds Demo.corrupted =
    (Raise ValueError, compared Demo.alice_creds Demo.corrupt_row Demo.corrupted) /\
  @get_current_user Demo.demo_bcrypt Demo.alice_creds Demo.corrupted =
    (Raise ValueError, compared Demo.alice_creds Demo.corrupt_row Demo.corrupted).
Proof.
  destruct (@C6_checkpw_exception_propagates Demo.demo_bcrypt Demo.alice_creds
              Demo.corrupted 1 Demo.corrupt_row ValueError)
    as (Hl & Hg & _);
    [by apply wf_table_singleton; [|eexists..]|reflexivity..|].
  by split.
Defined.

(** ** A store that fails during an update *)

Section UpdateFailure.
Context `{Bcrypt}.

(** [update_user] builds two responses only: the bare 200 and the 401 with
    its challenge.  No path of the handler answers 503. *)
Lemma update_user_status credentials new_user w r w' :
  update_user credentials new_user w = (Ret r, w') ->
  r = ok_200 \/ r = unauthorized.
Proof.
  unfold update_user. rewrite bind_apply, get_user_from_email_eq.
  destruct (if server_down w then None else _) as [u|].
  2:{ intros [= <- <-]. by right. }
  rewrite bind_apply. unfold call_checkpw.
  destruct (checkpw _ _) as [[|]|]; simpl.
  2:{ intros [= <- <-]. by right. }
  2:{ discriminate. }
  rewrite bind_apply.
  match goal with |- context [match ?m ?x with _ => _ end] =>
    destruct (m x) as [[pw|e] w2] end; [|discriminate].
  rewrite bind_apply. simpl. rewrite bind_apply.
  destruct (update_user_with_id _ _ _) as [[[res|]|e] w3].
  - intros [= <- <-]. by left.
  - intros [= <- <-]. by right.
  - discriminate.
Qed.

End UpdateFailure.

(** C7: the code answers 401 here.  The stored user presents the right
    password; the lookup reaches the server, the load of the update does
    not.  The handler answers 401 with the challenge header, not 503, and
    the table is unchanged. *)
Theorem C7_update_store_failure_is_401 :
  exists w',
    @update_user Demo.demo_bcrypt Demo.alice_creds Demo.only_first_name Demo.flaky
      = (Ret unauthorized, w') /\
    status_code unauthorized = 401 /\
    checkpw_log w' = [("longenough1", "$2b$abcdlongenough1")] /\
    table w' = table Demo.flaky.
Proof. eexists. split; [vm_compute; reflexivity|]. by repeat split. Qed.

(** ** Timestamps of a new record *)

Section SignupTimestamps.
Context `{Bcrypt}.

(** A signup whose body brings no timestamps stores the class-level
    defaults, whatever the clock says. *)
Lemma post_signup_default_timestamps b w r w' :
  body_account_created b = None -> body_account_updated b = None ->
  post_signup b w = (Ret r, w') -> status_code r = 201 ->
  exists key row,
    table w !! key = None /\ table w' !! key = Some row /\
    account_created row = Some (Dt (default_created w)) /\
    account_updated row = Some (Dt (default_updated w)).
Proof.
  intros Hc Hu Hs Hr.
  change (post_signup b w) with (signup (parse_User w b) w) in Hs.
  destruct (signup_hashed _ _ _ _ Hs) as [h Hh].
  rewrite (signup_eq _ _ _ Hh) in Hs. cbv zeta in Hs.
  destruct (insertable _ _) eqn:Hins.
  2:{ injection Hs as <- <-. discriminate Hr. }
  injection Hs as <- <-.
  apply insertable_true in Hins as (_ & Hbc & Hbu & _ & _ & _ & Hfree & _).
  eexists _, _. split; [exact Hfree|]. split.
  - simpl. apply lookup_insert_eq.
  - simpl. by rewrite Hc, Hu.
Qed.

End SignupTimestamps.

(** C9: the code stores the class-level defaults here.  The class was
    defined at times 1000 and 1001, the signup happens at time 5000; the
    new row is stamped 1000 and 1001, not 5000. *)
Theorem C9_signup_timestamps_are_class_defaults :
  clock Demo.boot = 5000 /\
  exists w' row,
    @post_signup Demo.demo_bcrypt Demo.alice Demo.boot = (Ret created_201, w') /\
    table w' !! 1 = Some row /\
    account_created row = Some (Dt 1000) /\
    account_updated row = Some (Dt 1001) /\
    account_created row <> Some (Dt (clock Demo.boot)) /\
    account_updated row <> Some (Dt (clock Demo.boot)).
Proof.
  split; [reflexivity|].
  exists Demo.registered, Demo.alice_row.
  split; [vm_compute; reflexivity|]. by repeat split.
Qed.

(** ** Every world the service can reach has a well-formed table *)

Section Reachability.
Context `{Bcrypt}.

Lemma login_table credentials w o w' :
  login credentials w = (o, w') -> table w' = table w.
Proof.
  unfold login. rewrite bind_apply, get_user_from_email_eq.
  destruct (if server_down w then None else _) as [u|]; [|by intros [= <- <-]].
  rewrite bind_apply. unfold call_checkpw.
  destruct (checkpw _ _) as [[|]|]; by intros [= <- <-].
Qed.

Lemma get_current_user_table credentials w o w' :
  get_current_user credentials w = (o, w') -> table w' = table w.
Proof.
  unfold get_current_user. rewrite bind_apply, get_user_from_email_eq.
  destruct (if server_down w then None else _) as [u|]; [|by intros [= <- <-]].
  rewrite bind_apply. unfold call_checkpw.
  destruct (checkpw _ _) as [[|]|]; simpl; try by intros [= <- <-].
  rewrite bind_apply. unfold lift.
  destruct (safe_dict u); by intros [= <- <-].
Qed.

(** What [update_user] can do to the table, whatever it returns: nothing,
    or overwrite one row with its merge. *)
Lemma update_user_table credentials new_user w o w' :
  update_user credentials new_user w = (o, w') ->
  table w' = table w \/
  exists k old j patch,
    table w !! k = Some old /\ id old = Some j /\
    is_Some (first_name patch) /\ is_Some (last_name patch) /\
    table w' = <[j := merged old patch (clock w)]> (table w).
Proof.
  unfold update_user. rewrite bind_apply, get_user_from_email_eq.
  destruct (if server_down w then None else _) as [u|];
    [|intros [= <- <-]; by left].
  rewrite bind_apply. unfold call_checkpw.
  destruct (checkpw _ _) as [[|]|]; simpl; try (intros [= <- <-]; by left).
  rewrite bind_apply.
  assert (forall (m : M string) w1 pw w2,
            m = mret (password u) \/
            (exists p, m = (salt ← gensalt;
                            h ← lift (hashpw (encode_utf8 p) salt);
                            mret (decode_utf8 h))) ->
            m w1 = (pw, w2) -> table w2 = table w1 /\ clock w2 = clock w1) as Hpw.
  { intros m w1 pw w2 [->|[p ->]].
    - by intros [= <- <-].
    - rewrite bind_apply. unfold gensalt. rewrite bind_apply. unfold lift.
      destruct (hashpw _ _); by intros [= <- <-]. }
  match goal with |- context [match ?m (set_checkpw_log ?a ?b) with _ => _ end] =>
    destruct (m (set_checkpw_log a b)) as [[pw|e] w2] eqn:Hm;
    assert (table w2 = table w /\ clock w2 = clock w) as [Ht Hcl]
      by (eapply (Hpw m (set_checkpw_log a b)); [|exact Hm];
          destruct (req_password new_user) as [p|]; [|by left];
          destruct (negb _); [right; by exists p|by left])
  end.
  2:{ intros [= <- <-]. by left. }
  rewrite bind_apply. simpl. rewrite bind_apply.
  destruct (update_user_with_id _ _ _) as [res w3] eqn:Hupd.
  apply update_user_with_id_table in Hupd
    as [Hsame|(k & old & j & _ & Hold & Hj & Hfn & Hln & Hnew)].
  - intros Hr. left.
    assert (w' = w3) as ->
      by (destruct res as [[?|]|?]; by injection Hr).
    by rewrite Hsame.
  - intros Hr. right.
    assert (w' = w3) as ->
      by (destruct res as [[?|]|?]; by injection Hr).
    rewrite Ht in Hold. rewrite Ht, Hcl in Hnew. by eexists k, old, j, _.
Qed.

Lemma update_user_wf credentials new_user w o w' :
  update_user credentials new_user w = (o, w') ->
  wf_table (table w) -> wf_table (table w').
Proof.
  intros Hu Hwf.
  destruct (update_user_table _ _ _ _ _ Hu)
    as [->|(k & old & j & patch & Hold & Hj & Hfn & Hln & ->)]; [done|].
  pose proof (wf_keyed _ Hwf _ _ Hold) as Hk.
  assert (j = k) as -> by congruence.
  by apply merged_wf.
Qed.

Lemma handle_wf q w o w' :
  handle q w = (o, w') -> wf_table (table w) -> wf_table (table w').
Proof.
  destruct q as [b|c|c|c r]; simpl.
  - apply signup_wf.
  - intros ->%login_table. done.
  - intros ->%get_current_user_table. done.
  - apply update_user_wf.
Qed.

(** No request removes a row or changes the [id], the [email] or the
    [account_created] of a row. *)
Lemma handle_keeps_identity q w o w' k u :
  handle q w = (o, w') -> wf_table (table w) ->
  table w !! k = Some u ->
  exists u', table w' !! k = Some u' /\ id u' = id u /\
             email u' = email u /\ account_created u' = account_created u.
Proof.
  intros Hq Hwf Hk.
  assert (table w' = table w -> exists u', table w' !! k = Some u' /\ id u' = id u /\
             email u' = email u /\ account_created u' = account_created u) as Hsame.
  { intros ->. by exists u. }
  destruct q as [b|c|c|c r]; simpl in Hq.
  - change (post_signup b w) with (signup (parse_User w b) w) in Hq.
    unfold signup in Hq. rewrite bind_apply in Hq. unfold gensalt in Hq.
    rewrite bind_apply in Hq. unfold lift in Hq.
    destruct (hashpw _ _) as [h|e]; [|injection Hq as <- <-; by apply Hsame].
    rewrite bind_apply, create_user_eq in Hq.
    destruct (insertable _ _) eqn:Hins; injection Hq as <- <-;
      [|by apply Hsame].
    apply insertable_true in Hins as (_ & Hbc & Hbu & _ & _ & _ & Hfree & _).
    exists u. split; [|done]. simpl in *.
    rewrite lookup_insert_ne; [done|]. intros Heq. congruence.
  - apply Hsame. by eapply login_table.
  - apply Hsame. by eapply get_current_user_table.
  - destruct (update_user_table _ _ _ _ _ Hq)
      as [Ht|(k0 & old & j & patch & Hold & Hj & _ & _ & Ht)];
      [by apply Hsame|].
    pose proof (wf_keyed _ Hwf _ _ Hold) as Hk0.
    assert (j = k0) as -> by congruence.
    rewrite Ht. destruct (decide (k0 = k)) as [->|Hne].
    + assert (old = u) as -> by congruence.
      eexists. split; [apply lookup_insert_eq|]. done.
    + exists u. split; [|done]. by rewrite lookup_insert_ne.
Qed.

Lemma reachable_wf w : reachable w -> wf_table (table w).
Proof.
  induction 1 as [w Hw|q w o w' _ IH Hq|w w' _ IH Ht].
  - rewrite Hw. apply wf_table_empty.
  - by eapply handle_wf.
  - by rewrite Ht.
Qed.

End Reachability.

(** ** The hash that login compares against *)

Section SignupThenLogin.
Context `{Bcrypt}.

(** After a signup answered 201, a login under the same email compares the
    claimed password against the very bytes that [bcrypt.hashpw] returned
    during the signup, and its answer is the outcome of that one
    comparison. *)
Lemma login_after_signup new_user w r w' credentials :
  wf_table (table w) ->
  signup new_user w = (Ret r, w') -> status_code r = 201 ->
  username credentials = email new_user ->
  server_down w' = false ->
  exists h row,
    hashpw (encode_utf8 (password new_user)) (entropy w (draws w)) = Ret h /\
    find_email (username credentials) (table w') = Some row /\
    encode_utf8 (password row) = h /\
    login credentials w' =
    match checkpw (encode_utf8 (cred_password credentials)) h with
    | Ret true => (Ret ok_200, compared credentials row w')
    | Ret false => (Ret unauthorized, compared credentials row w')
    | Raise e => (Raise e, compared credentials row w')
    end.
Proof.
  intros Hwf Hs Hr Hname Hup.
  pose proof (signup_wf _ _ _ _ Hs Hwf) as Hwf'.
  destruct (signup_hashed _ _ _ _ Hs) as [h Hh].
  rewrite (signup_eq _ _ _ Hh) in Hs. cbv zeta in Hs.
  destruct (insertable _ _) eqn:Hins.
  2:{ injection Hs as <- <-. discriminate Hr. }
  injection Hs as <- <-.
  set (stored := set_password new_user (decode_utf8 h)) in *.
  set (w1 := set_draws w (S (draws w))) in *.
  set (row := stored_row stored w1).
  assert (find_email (username credentials) (table (inserted stored w1)) = Some row)
    as Hf.
  { rewrite Hname. change (email new_user) with (email row).
    eapply find_email_unique; [apply Hwf'|]. apply lookup_insert_eq. }
  exists h, row. split; [done|]. split; [done|]. split; [done|].
  by rewrite (login_found _ _ row).
Qed.

End SignupThenLogin.

(** * Further properties of the code *)

(** ** The table across requests *)

(** X1.  Invariant of the service.  In every world reached from an empty
    table by requests, each row is stored under its own [id], holds both
    names, and is the one and only row found under its [email]. *)
Theorem X1_reachable_table_invariant `{Bcrypt} (w : World) :
  reachable w ->
  wf_table (table w) /\
  (forall k u, table w !! k = Some u ->
     id u = Some k /\ is_Some (first_name u) /\ is_Some (last_name u) /\
     find_email (email u) (table w) = Some u).
Proof.
  intros Hr. pose proof (reachable_wf w Hr) as Hwf. split; [done|].
  intros k u Hk. split; [by apply (wf_keyed _ Hwf)|].
  destruct (wf_names _ Hwf _ _ Hk) as [? ?].
  repeat split; try done.
  eapply find_email_unique; [apply Hwf|done].
Qed.

Lemma X1_reachable_table_invariant_witness :
  wf_table (table Demo.registered) /\
  (forall k u, table Demo.registered !! k = Some u ->
     id u = Some k /\ is_Some (first_name u) /\ is_Some (last_name u) /\
     find_email (email u) (table Demo.registered) = Some u).
Proof.
  apply (@X1_reachable_table_invariant Demo.demo_bcrypt Demo.registered).
  apply (@reach_handle Demo.demo_bcrypt (PostSignup Demo.alice) Demo.boot
           (Ret (mkResponse 201 [] None)) Demo.registered).
  - apply reach_boot. reflexivity.
  - vm_compute. reflexivity.
Defined.

(** X2.  No request removes a row, and none changes the [id], the [email]
    or the [account_created] of a row that is in the table. *)
Theorem X2_request_keeps_identity `{Bcrypt} (q : Request) (w : World)
    (o : Outcome Response) (w' : World) (k : Z) (u : User) :
  wf_table (table w) ->
  handle q w = (o, w') ->
  table w !! k = Some u ->
  exists u', table w' !! k = Some u' /\ id u' = id u /\
             email u' = email u /\ account_created u' = account_created u.
Proof. intros Hwf Hq Hk. by eapply handle_keeps_identity. Qed.

Lemma X2_request_keeps_identity_witness :
  exists u',
    table (@handle Demo.demo_bcrypt (PutMe Demo.alice_creds Demo.only_first_name)
             Demo.registered).2 !! 1 = Some u' /\
    id u' = Some 1 /\ email u' = "a@x.com" /\ account_created u' = Some (Dt 1000).
Proof.
  apply (@X2_request_keeps_identity Demo.demo_bcrypt
           (PutMe Demo.alice_creds Demo.only_first_name) Demo.registered
           (@handle Demo.demo_bcrypt (PutMe Demo.alice_creds Demo.only_first_name)
              Demo.registered).1
           _ 1 Demo.alice_row registered_wf).
  - by destruct (handle _ _).
  - reflexivity.
Defined.

(** ** [create_user] and [get_user_from_email] *)

(** X3.  [create_user] is all or nothing and never raises.  When it
    returns [False] the table is as before.  When it returns [True] the
    table has exactly one more row and every other row is as before.  The
    new row sits under a key that was free: the record's own [id] when it
    has one, otherwise 1 in an empty table and the successor of the largest
    key (as long as that is below the largest 64-bit integer).  It carries
    the [email], the [password] and the names of the record; a timestamp
    of the record that is a datetime is stored as it is, one that is
    [None] as the class-level default. *)
Theorem X3_create_user_all_or_nothing (new_user : User) (w : World) :
  exists b w',
    create_user new_user w = (Ret b, w') /\
    (b = false -> table w' = table w) /\
    (b = true ->
     exists key row,
       table w !! key = None /\
       rowid_in_range key = true /\
       (forall i, id new_user = Some i -> key = i) /\
       (id new_user = None -> table w = ∅ -> key = 1) /\
       (id new_user = None ->
        forall m, is_Some (table w !! m) ->
                  (forall k, is_Some (table w !! k) -> k <= m) ->
                  m < max_rowid -> key = m + 1) /\
       table w' !! key = Some row /\
       id row = Some key /\ email row = email new_user /\
       password row = password new_user /\
       first_name row = first_name new_user /\
       last_name row = last_name new_user /\
       (forall t, account_created new_user = Some (Dt t) ->
                  account_created row = Some (Dt t)) /\
       (account_created new_user = None ->
        account_created row = Some (Dt (default_created w))) /\
       (forall t, account_updated new_user = Some (Dt t) ->
                  account_updated row = Some (Dt t)) /\
       (account_updated new_user = None ->
        account_updated row = Some (Dt (default_updated w))) /\
       (forall k, k <> key -> table w' !! k = table w !! k) /\
       size (table w') = S (size (table w))).
Proof.
  rewrite create_user_eq. eexists _, _. split; [reflexivity|].
  destruct (insertable new_user w) eqn:Hins; split; try done.
  intros _.
  apply insertable_true in Hins as (_ & Hbc & Hbu & Hrange & _ & _ & Hfree & _).
  exists (insert_key new_user w), (stored_row new_user w).
  split; [done|]. split; [done|].
  split; [unfold insert_key; by intros i ->|].
  split.
  { unfold insert_key. intros -> Ht. simpl. by apply fresh_id_rule. }
  split.
  { unfold insert_key. intros -> m Hm Hmax Hlt. simpl.
    by apply fresh_id_rule. }
  split; [apply lookup_insert_eq|].
  simpl. do 5 (split; [reflexivity|]).
  split; [by intros t ->|]. split; [by intros ->|].
  split; [by intros t ->|]. split; [by intros ->|].
  split.
  - intros k Hk. by rewrite lookup_insert_ne.
  - by apply map_size_insert_None.
Qed.

(** X4.  Insert, then look up.  After [create_user] returned [True] on a
    well-formed table, a lookup of the record's email that reaches the
    server returns the row that was stored: the [email], the [password]
    and the names of the record, the key it was stored under as [id], and
    the stored timestamps (the record's datetime, or the class-level
    default where the record had [None]). *)
Theorem X4_create_then_lookup (new_user : User) (w w' : World) :
  wf_table (table w) ->
  create_user new_user w = (Ret true, w') ->
  server_down w' = false ->
  exists key row,
    (forall i, id new_user = Some i -> key = i) /\
    get_user_from_email (email new_user) w' = (Ret (Some row), after_trip w') /\
    id row = Some key /\ email row = email new_user /\
    password row = password new_user /\
    first_name row = first_name new_user /\
    last_name row = last_name new_user /\
    (forall t, account_created new_user = Some (Dt t) ->
               account_created row = Some (Dt t)) /\
    (account_created new_user = None ->
     account_created row = Some (Dt (default_created w))) /\
    (forall t, account_updated new_user = Some (Dt t) ->
               account_updated row = Some (Dt t)) /\
    (account_updated new_user = None ->
     account_updated row = Some (Dt (default_updated w))).
Proof.
  intros Hwf Hc Hup.
  pose proof (create_user_wf _ _ _ _ Hc Hwf) as Hwf'.
  rewrite create_user_eq in Hc.
  destruct (insertable new_user w) eqn:Hins; [|discriminate Hc].
  injection Hc as <-.
  exists (insert_key new_user w), (stored_row new_user w). split.
  { unfold insert_key. by intros i ->. }
  split.
  { rewrite get_user_from_email_eq, Hup.
    change (email new_user) with (email (stored_row new_user w)).
    erewrite find_email_unique; [done|apply Hwf'|]. apply lookup_insert_eq. }
  simpl. do 5 (split; [reflexivity|]).
  split; [by intros t ->|]. split; [by intros ->|].
  split; [by intros t ->|]. by intros ->.
Qed.

Lemma X4_create_then_lookup_witness :
  let new_user := mkUser None "a@x.com" "hashedsupersecretpassword"
                         (Some "Test") (Some "User") None (Some (Dt 7)) in
  let w' := (create_user new_user Demo.boot).2 in
  exists key row,
    get_user_from_email "a@x.com" w' = (Ret (Some row), after_trip w') /\
    id row = Some key /\ email row = "a@x.com" /\
    password row = "hashedsupersecretpassword" /\
    account_created row = Some (Dt 1000) /\
    account_updated row = Some (Dt 7).
Proof.
  intros new_user w'.
  destruct (X4_create_then_lookup new_user Demo.boot w')
    as (key & row & _ & Hl & Hid & He & Hp & _ & _ & _ & Hc & Hu & _).
  - apply wf_table_empty.
  - vm_compute. reflexivity.
  - reflexivity.
  - exists key, row. repeat split; try done.
    + by apply Hc.
    + by apply (Hu 7).
Defined.

(** X5.  A lookup by email never raises and never changes the table.  A
    user it returns is a row of the table with the requested email.  It
    returns nothing when the server does not answer, and otherwise only
    when no row has that email. *)
Theorem X5_lookup_sound_and_silent (e : string) (w : World) :
  exists r,
    get_user_from_email e w = (Ret r, after_trip w) /\
    table (after_trip w) = table w /\
    (forall u, r = Some u -> email u = e /\ exists k, table w !! k = Some u) /\
    (server_down w = true -> r = None) /\
    (server_down w = false ->
     (r = None <-> forall k u, table w !! k = Some u -> email u <> e)).
Proof.
  rewrite get_user_from_email_eq. eexists. split; [reflexivity|].
  split; [reflexivity|]. destruct (server_down w); repeat split; try done.
  - by destruct (find_email_Some e (table w) u) as (k & ? & ?).
  - destruct (find_email_Some e (table w) u) as (k & ? & ?); [done|]. by exists k.
  - by apply find_email_None.
  - by apply find_email_None.
Qed.

(** ** [update_user_with_id] *)

(** An update of a row that is there, with both names given: what the
    three round trips decide. *)
Lemma update_user_with_id_trips k old user w :
  table w !! k = Some old -> id old = Some k ->
  is_Some (first_name user) -> is_Some (last_name user) ->
  update_user_with_id (Some k) user w =
  if server_down w then (Ret None, after_trip w)
  else if server_down (after_trip w) then (Ret None, after_trip (after_trip w))
  else (Ret (if server_down (after_trip (after_trip w)) then None
             else Some (merged old user (clock w))),
        set_table (trips3 w) (<[k := merged old user (clock w)]> (table w))).
Proof.
  intros Hold Hid [fn Hfn] [ln Hln].
  unfold update_user_with_id, session_get, session_commit, session_refresh.
  munfold. simpl.
  destruct (server_down w); simpl; [done|].
  rewrite Hold. simpl. rewrite Hid. simpl.
  destruct (server_down (after_trip w)); simpl; [done|].
  rewrite Hfn, Hln. simpl.
  change (server_down (set_table (after_trip (after_trip w)) ?t))
    with (server_down (after_trip (after_trip w))).
  unfold merged. rewrite Hfn, Hln.
  destruct (server_down (after_trip (after_trip w))); simpl; [done|].
  by rewrite lookup_insert_eq.
Qed.

(** X6.  [update_user_with_id] never raises, and it refuses without
    touching the table: when no key is given, when no row has the key,
    when the patch lacks a name, and when the server fails at the load or
    at the UPDATE, it returns [None] and the table is as before. *)
Theorem X6_update_user_with_id_refusals (user_id : option Z) (user : User)
    (w : World) :
  exists res w',
    update_user_with_id user_id user w = (Ret res, w') /\
    (user_id = None \/
     (exists k, user_id = Some k /\ table w !! k = None) \/
     first_name user = None \/ last_name user = None \/
     server_down w = true \/ server_down (after_trip w) = true ->
     res = None /\ table w' = table w).
Proof.
  destruct (update_user_with_id_returns user_id user w) as (res & w' & Hu).
  exists res, w'. split; [done|]. intros Hcond.
  revert Hu.
  unfold update_user_with_id, session_get, session_commit, session_refresh.
  destruct user_id as [k|]; munfold; simpl; [|by intros [= <- <-]].
  destruct (server_down w) eqn:Hd1; simpl; [by intros [= <- <-]|].
  destruct (table w !! k) as [old|] eqn:Hold; simpl; [|by intros [= <- <-]].
  destruct (id old) as [j|] eqn:Hj; simpl; [|by intros [= <- <-]].
  destruct (server_down (after_trip w)) eqn:Hd2; simpl; [by intros [= <- <-]|].
  destruct (first_name user) as [fn|] eqn:Hfn; simpl; [|by intros [= <- <-]].
  destruct (last_name user) as [ln|] eqn:Hln; simpl; [|by intros [= <- <-]].
  exfalso.
  destruct Hcond as [?|[(k' & ? & ?)|[?|[?|[?|?]]]]]; congruence.
Qed.

(** X7.  Update, then look up.  When [update_user_with_id] returns a row
    on a well-formed table, that row carries the [first_name], [last_name]
    and [password] of the patch and the time of the call as
    [account_updated], and a lookup of its email that reaches the server
    returns that very row. *)
Theorem X7_update_then_lookup (user_id : option Z) (user : User)
    (w : World) (res : User) (w' : World) :
  wf_table (table w) ->
  update_user_with_id user_id user w = (Ret (Some res), w') ->
  server_down w' = false ->
  first_name res = first_name user /\
  last_name res = last_name user /\
  password res = password user /\
  account_updated res = Some (Dt (clock w)) /\
  get_user_from_email (email res) w' = (Ret (Some res), after_trip w').
Proof.
  intros Hwf Hu Hup.
  pose proof (update_user_with_id_wf _ _ _ _ _ Hu Hwf) as Hwf'.
  apply update_user_with_id_Some in Hu
    as (k & old & j & -> & Hold & Hj & -> & -> & _).
  repeat split; try done.
  rewrite get_user_from_email_eq, Hup.
  erewrite find_email_unique; [done|apply Hwf'|]. apply lookup_insert_eq.
Qed.

Lemma X7_update_then_lookup_witness :
  let patch := mkUser None "" "newhashedpassword" (Some "UpdatedFirstName")
                      (Some "UpdatedLastName") None None in
  let res := merged Demo.alice_row patch 5000 in
  let w' := (update_user_with_id (Some 1) patch Demo.registered).2 in
  first_name res = Some "UpdatedFirstName" /\
  last_name res = Some "UpdatedLastName" /\
  password res = "newhashedpassword" /\
  account_updated res = Some (Dt 5000) /\
  get_user_from_email "a@x.com" w' = (Ret (Some res), after_trip w').
Proof.
  intros patch res w'.
  apply (X7_update_then_lookup (Some 1) patch Demo.registered res w').
  - apply registered_wf.
  - vm_compute. reflexivity.
  - reflexivity.
Defined.

(** X8.  An update can be committed and still be reported as failed.
    When the server answers the load and the UPDATE but not the reload,
    [update_user_with_id] returns [None] although the row now holds the
    merged values. *)
Theorem X8_update_committed_but_none (k : Z) (old user : User) (w : World) :
  table w !! k = Some old -> id old = Some k ->
  is_Some (first_name user) -> is_Some (last_name user) ->
  server_down w = false ->
  server_down (after_trip w) = false ->
  server_down (after_trip (after_trip w)) = true ->
  exists w',
    update_user_with_id (Some k) user w = (Ret None, w') /\
    table w' !! k = Some (merged old user (clock w)) /\
    (forall k', k' <> k -> table w' !! k' = table w !! k').
Proof.
  intros Hold Hid Hfn Hln Hd1 Hd2 Hd3.
  rewrite (update_user_with_id_trips k old) by done.
  rewrite Hd1, Hd2, Hd3. eexists. split; [reflexivity|]. simpl. split.
  - apply lookup_insert_eq.
  - intros k' Hk'. by rewrite lookup_insert_ne.
Qed.

Lemma X8_update_committed_but_none_witness :
  let patch := mkUser None "" "newhashedpassword" (Some "UpdatedFirstName")
                      (Some "UpdatedLastName") None None in
  let w := set_faults Demo.registered [false; false; true] in
  exists w',
    update_user_with_id (Some 1) patch w = (Ret None, w') /\
    table w' !! 1 = Some (merged Demo.alice_row patch 5000) /\
    (forall k', k' <> 1 -> table w' !! k' = table w !! k').
Proof.
  intros patch w.
  apply (X8_update_committed_but_none 1 Demo.alice_row patch w);
    solve [reflexivity | by eexists].
Defined.

(** ** The handlers *)

Section AcceptedUpdate.
Context `{Bcrypt}.

(** [update_user] after accepted credentials: what is left is the call of
    the store, in a world [w2] that differs from [w] by the round trip of
    the lookup, the logged comparison and the salt that was drawn. *)
Lemma update_user_accepted credentials new_user w u pw :
  server_down w = false ->
  find_email (username credentials) (table w) = Some u ->
  checkpw (encode_utf8 (cred_password credentials))
          (encode_utf8 (password u)) = Ret true ->
  next_password new_user u w pw ->
  exists w2,
    table w2 = table w /\ clock w2 = clock w /\ faults w2 = tail (faults w) /\
    checkpw_log w2 = checkpw_log (compared credentials u w) /\
    update_user credentials new_user w =
    (res ← update_user_with_id (id u)
             (User_of_names_password w2 (next_first_name new_user u)
                (next_last_name new_user u) pw);
     match res with
     | Some _ => mret ok_200
     | None => mret unauthorized
     end) w2.
Proof.
  intros Hd Hf Hc Hpw. unfold update_user.
  rewrite bind_apply, get_user_from_email_eq, Hd, Hf.
  rewrite bind_apply. unfold call_checkpw. rewrite Hc.
  rewrite bind_apply.
  fold (next_first_name new_user u). fold (next_last_name new_user u).
  destruct Hpw as [[Ht ->]|(p & h & Hp & Ht & Hh & ->)].
  - exists (compared credentials u w). repeat split.
    destruct (req_password new_user) as [p|]; [|done].
    by rewrite Ht.
  - exists (set_draws (compared credentials u w) (S (draws w))). repeat split.
    rewrite Hp, Ht. rewrite bind_apply. unfold gensalt. simpl.
    rewrite bind_apply. unfold lift. simpl in Hh. by rewrite Hh.
Qed.

End AcceptedUpdate.

(** X9.  [PUT /me] can answer 401 to a user whose update was stored.
    With accepted credentials, when the server answers the lookup, the
    load and the UPDATE but not the reload, the handler answers 401 with
    the challenge header, and the row of the user holds the new values. *)
Theorem X9_put_me_401_after_commit `{Bcrypt} (credentials : Credentials)
    (new_user : UpdateRequest) (w : World) (k : Z) (u : User) (pw : string)
    (fs : list bool) :
  wf_table (table w) ->
  table w !! k = Some u -> email u = username credentials ->
  faults w = false :: false :: false :: true :: fs ->
  checkpw (encode_utf8 (cred_password credentials))
          (encode_utf8 (password u)) = Ret true ->
  next_password new_user u w pw ->
  exists w',
    update_user credentials new_user w = (Ret unauthorized, w') /\
    table w' !! k =
      Some (mkUser (id u) (email u) pw
                   (next_first_name new_user u) (next_last_name new_user u)
                   (account_created u) (Some (Dt (clock w)))).
Proof.
  intros Hwf Hk He Hfl Hc Hpw.
  assert (find_email (username credentials) (table w) = Some u) as Hf.
  { rewrite <- He. eapply find_email_unique; [apply Hwf|done]. }
  assert (server_down w = false) as Hd by (unfold server_down; by rewrite Hfl).
  destruct (update_user_accepted credentials new_user w u pw Hd Hf Hc Hpw)
    as (w2 & Ht & Hcl & Hf2 & _ & ->).
  rewrite Hfl in Hf2. simpl in Hf2.
  pose proof (wf_keyed _ Hwf _ _ Hk) as Hid.
  destruct (wf_names _ Hwf _ _ Hk) as [Hfn Hln].
  destruct (next_names_present new_user u Hfn Hln) as [Hfn' Hln'].
  rewrite bind_apply, Hid.
  rewrite (update_user_with_id_trips k u) by (by rewrite ?Ht).
  unfold server_down, after_trip. simpl. rewrite Hf2. simpl.
  eexists. split; [reflexivity|]. simpl.
  rewrite Hcl, lookup_insert_eq, merged_fields. simpl. by rewrite Hid.
Qed.

Lemma X9_put_me_401_after_commit_witness :
  let w := set_faults Demo.registered [false; false; false; true] in
  exists w',
    @update_user Demo.demo_bcrypt Demo.alice_creds Demo.only_first_name w
      = (Ret unauthorized, w') /\
    table w' !! 1 =
      Some (mkUser (Some 1) "a@x.com" "$2b$abcdlongenough1" (Some "Z") (Some "B")
                   (Some (Dt 1000)) (Some (Dt 5000))).
Proof.
  intros w.
  apply (@X9_put_me_401_after_commit Demo.demo_bcrypt Demo.alice_creds
           Demo.only_first_name w 1 Demo.alice_row "$2b$abcdlongenough1" []).
  - apply registered_wf.
  - reflexivity.
  - reflexivity.
  - reflexivity.
  - reflexivity.
  - left. split; reflexivity.
Defined.

(** X10.  The handlers that only read.  Whatever they return or raise,
    [login], [get_current_user] and [health_check] leave the table as it
    is and draw no salt. *)
Theorem X10_read_only_handlers `{Bcrypt} (credentials : Credentials) (w : World) :
  (forall o w', login credentials w = (o, w') ->
     table w' = table w /\ draws w' = draws w) /\
  (forall o w', get_current_user credentials w = (o, w') ->
     table w' = table w /\ draws w' = draws w) /\
  (forall o w', health_check w = (o, w') ->
     table w' = table w /\ draws w' = draws w /\
     checkpw_log w' = checkpw_log w).
Proof.
  split; [|split].
  - intros o w'. unfold login. rewrite bind_apply, get_user_from_email_eq.
    destruct (if server_down w then None else _) as [u|]; [|by intros [= <- <-]].
    rewrite bind_apply. unfold call_checkpw.
    destruct (checkpw _ _) as [[|]|]; by intros [= <- <-].
  - intros o w'. unfold get_current_user.
    rewrite bind_apply, get_user_from_email_eq.
    destruct (if server_down w then None else _) as [u|]; [|by intros [= <- <-]].
    rewrite bind_apply. unfold call_checkpw.
    destruct (checkpw _ _) as [[|]|]; simpl; try by intros [= <- <-].
    rewrite bind_apply. unfold lift.
    destruct (safe_dict u); by intros [= <- <-].
  - intros o w'. rewrite health_check_eq. by intros [= <- <-].
Qed.

(** X11.  [PUT /me] builds two responses only.  Whenever it answers, the
    answer is the bare 200 or the 401 with [WWW-Authenticate: Basic];
    it never answers 503, whatever the store did. *)
Theorem X11_put_me_answers `{Bcrypt} (credentials : Credentials)
    (new_user : UpdateRequest) (w : World) (r : Response) (w' : World) :
  update_user credentials new_user w = (Ret r, w') ->
  (r = ok_200 \/ r = unauthorized) /\ status_code r <> 503.
Proof.
  intros Hu. destruct (update_user_status _ _ _ _ _ Hu) as [->| ->];
    split; auto; discriminate.
Qed.

Lemma X11_put_me_answers_witness :
  let r := mkResponse 401 [("WWW-Authenticate", "Basic")] None in
  (r = ok_200 \/ r = unauthorized) /\ status_code r <> 503.
Proof.
  intros r.
  apply (@X11_put_me_answers Demo.demo_bcrypt Demo.alice_creds
           Demo.only_first_name Demo.flaky r
           (@update_user Demo.demo_bcrypt Demo.alice_creds Demo.only_first_name
              Demo.flaky).2).
  vm_compute. reflexivity.
Defined.

(** ** Signup, then the other requests *)

(** A timestamp member of the body that the INSERT can bind is stored as
    the class-level default: it was omitted or [null]. *)
Lemma body_stamp_bound (dflt : datetime) (member : option Json) :
  let attribute := match member with
                   | None => Some (Dt dflt)
                   | Some j => stamp_of_json j
                   end in
  bindable attribute = true ->
  (member = None \/ member = Some JNull) /\ bound_stamp dflt attribute = dflt.
Proof.
  destruct member as [[| | |]|]; simpl; try discriminate; intros _; split;
    auto.
Qed.

(** X12.  Timestamps of a record created by [POST /signup/].  A signup is
    answered 201 only when each timestamp member of the body is omitted or
    [null], and the new row then carries the class-level defaults for
    both; the clock plays no part.  A body with any other value in a
    timestamp member is answered 503 and the table stays as it is. *)
Theorem X12_signup_timestamps `{Bcrypt} (b : SignupBody) (w : World)
    (r : Response) (w' : World) :
  post_signup b w = (Ret r, w') ->
  (status_code r = 201 ->
   (body_account_created b = None \/ body_account_created b = Some JNull) /\
   (body_account_updated b = None \/ body_account_updated b = Some JNull) /\
   exists key row,
     table w !! key = None /\ table w' !! key = Some row /\
     email row = body_email b /\
     account_created row = Some (Dt (default_created w)) /\
     account_updated row = Some (Dt (default_updated w))) /\
  ((exists j, body_account_created b = Some j /\ j <> JNull) \/
   (exists j, body_account_updated b = Some j /\ j <> JNull) ->
   r = unavailable_503 /\ table w' = table w).
Proof.
  intros Hs.
  change (post_signup b w) with (signup (parse_User w b) w) in Hs.
  destruct (signup_hashed _ _ _ _ Hs) as [h Hh].
  rewrite (signup_eq _ _ _ Hh) in Hs. cbv zeta in Hs.
  destruct (insertable _ _) eqn:Hins; injection Hs as <- <-.
  - apply insertable_true in Hins as (_ & Hbc & Hbu & _ & _ & _ & Hfree & _).
    simpl in Hbc, Hbu.
    destruct (body_stamp_bound (default_created w) (body_account_created b) Hbc)
      as [Hc Hc'].
    destruct (body_stamp_bound (default_updated w) (body_account_updated b) Hbu)
      as [Hu Hu'].
    split.
    + intros _. split; [done|]. split; [done|].
      eexists _, _. split; [exact Hfree|]. split; [apply lookup_insert_eq|].
      simpl. by rewrite Hc', Hu'.
    + intros [(j & Hj & Hne)|(j & Hj & Hne)].
      * destruct Hc as [Hc|Hc]; congruence.
      * destruct Hu as [Hu|Hu]; congruence.
  - split; [discriminate|]. done.
Qed.

Lemma X12_signup_timestamps_witness :
  let body := mkSignupBody None "c@x.com" "longenough1" (Some "C") (Some "D")
                           None (Some JNull) in
  let w' := (@post_signup Demo.demo_bcrypt body Demo.registered).2 in
  exists key row,
    table Demo.registered !! key = None /\ table w' !! key = Some row /\
    email row = "c@x.com" /\
    account_created row = Some (Dt 1000) /\
    account_updated row = Some (Dt 1001).
Proof.
  intros body w'.
  destruct (@X12_signup_timestamps Demo.demo_bcrypt body Demo.registered
              created_201 w') as [Hok _].
  - vm_compute. reflexivity.
  - by destruct (Hok eq_refl) as (_ & _ & Hrow).
Defined.

(** X13.  Signup, then login.  After a signup answered 201 on a
    well-formed table, a login under the same email that reaches the
    server compares the claimed password once, against the very bytes
    [bcrypt.hashpw] returned during the signup, and answers 200 or 401 as
    that comparison says. *)
Theorem X13_signup_then_login `{Bcrypt} (new_user : User) (w : World)
    (r : Response) (w' : World) (credentials : Credentials) :
  wf_table (table w) ->
  signup new_user w = (Ret r, w') -> status_code r = 201 ->
  username credentials = email new_user ->
  server_down w' = false ->
  exists h row,
    hashpw (encode_utf8 (password new_user)) (entropy w (draws w)) = Ret h /\
    encode_utf8 (password row) = h /\
    checkpw_log (login credentials w').2 =
      (checkpw_log w' ++ [(encode_utf8 (cred_password credentials), h)])%list /\
    login credentials w' =
    match checkpw (encode_utf8 (cred_password credentials)) h with
    | Ret true => (Ret ok_200, compared credentials row w')
    | Ret false => (Ret unauthorized, compared credentials row w')
    | Raise e => (Raise e, compared credentials row w')
    end.
Proof.
  intros Hwf Hs Hr Hname Hup.
  destruct (login_after_signup _ _ _ _ _ Hwf Hs Hr Hname Hup)
    as (h & row & Hh & _ & Hrow & Hl).
  exists h, row. repeat split; try done.
  rewrite Hl. rewrite <- Hrow.
  destruct (checkpw (encode_utf8 (cred_password credentials))
              (encode_utf8 (password row))) as [[|]|]; reflexivity.
Qed.

Lemma X13_signup_then_login_witness :
  exists h row,
    Demo.demo_hashpw "longenough1" "$2b$abcd" = Ret h /\
    encode_utf8 (password row) = h /\
    checkpw_log (@login Demo.demo_bcrypt Demo.wrong_creds Demo.registered).2 =
      [("wrongpassword", h)] /\
    @login Demo.demo_bcrypt Demo.wrong_creds Demo.registered =
    match Demo.demo_checkpw "wrongpassword" h with
    | Ret true => (Ret ok_200, compared Demo.wrong_creds row Demo.registered)
    | Ret false => (Ret unauthorized, compared Demo.wrong_creds row Demo.registered)
    | Raise e => (Raise e, compared Demo.wrong_creds row Demo.registered)
    end.
Proof.
  apply (@X13_signup_then_login Demo.demo_bcrypt (parse_User Demo.boot Demo.alice)
           Demo.boot created_201 Demo.registered Demo.wrong_creds).
  - apply wf_table_empty.
  - vm_compute. reflexivity.
  - reflexivity.
  - reflexivity.
  - reflexivity.
Defined.

(** X14.  Signup, then [GET /me].  After a [POST /signup/] answered 201, a
    current-user request under the same email whose password the stored
    hash accepts is answered 200 with the profile as it was signed up,
    under the key the row was given; both timestamps of the body are the
    class-level defaults. *)
Theorem X14_signup_then_me `{Bcrypt} (b : SignupBody) (w : World)
    (r : Response) (w' : World) (credentials : Credentials) :
  wf_table (table w) ->
  post_signup b w = (Ret r, w') -> status_code r = 201 ->
  username credentials = body_email b ->
  server_down w' = false ->
  exists h key,
    hashpw (encode_utf8 (body_password b)) (entropy w (draws w)) = Ret h /\
    (forall i, body_id b = Some i -> key = i) /\
    (checkpw (encode_utf8 (cred_password credentials)) h = Ret true ->
     (get_current_user credentials w').1 =
     Ret (mkResponse 200 []
            (Some [("id", JInt key);
                   ("email", JStr (body_email b));
                   ("first_name", json_of_str (body_first_name b));
                   ("last_name", json_of_str (body_last_name b));
                   ("account_created", JIso (default_created w));
                   ("account_updated", JIso (default_updated w))]))).
Proof.
  intros Hwf Hs Hr Hname Hup.
  change (post_signup b w) with (signup (parse_User w b) w) in Hs.
  pose proof (signup_wf _ _ _ _ Hs Hwf) as Hwf'.
  destruct (signup_hashed _ _ _ _ Hs) as [h Hh].
  rewrite (signup_eq _ _ _ Hh) in Hs. cbv zeta in Hs.
  destruct (insertable _ _) eqn:Hins.
  2:{ injection Hs as <- <-. discriminate Hr. }
  injection Hs as <- <-.
  set (stored := set_password (parse_User w b) (decode_utf8 h)) in *.
  set (w1 := set_draws w (S (draws w))) in *.
  set (key := insert_key stored w1).
  set (row := stored_row stored w1).
  exists h, key. split; [exact Hh|]. split.
  { unfold key, insert_key. simpl. by intros i ->. }
  intros Hc.
  assert (find_email (username credentials) (table (inserted stored w1)) = Some row)
    as Hf.
  { rewrite Hname. change (body_email b) with (email row).
    eapply find_email_unique; [apply Hwf'|]. apply lookup_insert_eq. }
  rewrite (get_current_user_found _ _ row) by done.
  change (encode_utf8 (password row)) with h. rewrite Hc.
  apply insertable_true in Hins as (_ & Hbc & Hbu & _).
  simpl in Hbc, Hbu.
  destruct (body_stamp_bound (default_created w) (body_account_created b) Hbc)
    as [_ Hc'].
  destruct (body_stamp_bound (default_updated w) (body_account_updated b) Hbu)
    as [_ Hu'].
  unfold safe_dict. simpl. by rewrite Hc', Hu'.
Qed.

Lemma X14_signup_then_me_witness :
  let body := mkSignupBody None "c@x.com" "longenough1" (Some "C") (Some "D")
                           None (Some JNull) in
  let w' := (@post_signup Demo.demo_bcrypt body Demo.registered).2 in
  exists key,
    (@get_current_user Demo.demo_bcrypt (mkCredentials "c@x.com" "longenough1") w').1
    = Ret (mkResponse 200 []
             (Some [("id", JInt key); ("email", JStr "c@x.com");
                    ("first_name", JStr "C"); ("last_name", JStr "D");
                    ("account_created", JIso 1000);
                    ("account_updated", JIso 1001)])).
Proof.
  intros body w'.
  destruct (@X14_signup_then_me Demo.demo_bcrypt body Demo.registered created_201 w'
              (mkCredentials "c@x.com" "longenough1"))
    as (h & key & Hh & _ & Hme).
  - apply registered_wf.
  - vm_compute. reflexivity.
  - reflexivity.
  - reflexivity.
  - reflexivity.
  - exists key. apply Hme. vm_compute in Hh. injection Hh as <-. reflexivity.
Defined.

(** ** An unreachable server *)

(** X15.  An outage reads as bad credentials.  When the server does not
    answer the lookup, [login], [get_current_user] and [update_user] answer
    401 with the challenge header whatever the credentials are, without
    comparing any password, while [health_check] answers 503. *)
Theorem X15_outage_is_unauthorized `{Bcrypt} (credentials : Credentials)
    (w : World) :
  server_down w = true ->
  login credentials w = (Ret unauthorized, after_trip w) /\
  get_current_user credentials w = (Ret unauthorized, after_trip w) /\
  (forall r, update_user credentials r w = (Ret unauthorized, after_trip w)) /\
  health_check w = (Ret unavailable_503, after_trip w) /\
  checkpw_log (after_trip w) = checkpw_log w /\
  table (after_trip w) = table w.
Proof.
  intros Hd.
  destruct (no_user_unauthorized credentials w) as (Hl & Hg & Hu);
    [by rewrite Hd|].
  repeat split; try done.
  by rewrite health_check_eq, Hd.
Qed.

Lemma X15_outage_is_unauthorized_witness :
  let w := set_faults Demo.registered [true] in
  @login Demo.demo_bcrypt Demo.alice_creds w = (Ret unauthorized, after_trip w) /\
  @get_current_user Demo.demo_bcrypt Demo.alice_creds w =
    (Ret unauthorized, after_trip w) /\
  (forall r, @update_user Demo.demo_bcrypt Demo.alice_creds r w =
             (Ret unauthorized, after_trip w)) /\
  health_check w = (Ret unavailable_503, after_trip w) /\
  checkpw_log (after_trip w) = checkpw_log w /\
  table (after_trip w) = table w.
Proof.
  intros w.
  apply (@X15_outage_is_unauthorized Demo.demo_bcrypt Demo.alice_creds w).
  reflexivity.
Defined.

(** X16.  [GET /healthz] never raises and touches neither the table nor
    the log: it answers the bare 200 when the server answers the probe and
    the bare 503 when it does not. *)
Theorem X16_health_check_probe (w : World) :
  exists r,
    health_check w = (Ret r, after_trip w) /\
    headers r = [] /\ content r = None /\
    (status_code r = 200 <-> server_down w = false) /\
    (status_code r = 503 <-> server_down w = true).
Proof.
  rewrite health_check_eq. eexists. split; [reflexivity|].
  destruct (server_down w); repeat split; done.
Qed.

(** ** Which hash a password is compared with *)

Lemma update_user_with_id_side user_id user w res w' :
  update_user_with_id user_id user w = (res, w') ->
  checkpw_log w' = checkpw_log w /\ draws w' = draws w.
Proof.
  unfold update_user_with_id, session_get, session_commit, session_refresh.
  destruct user_id as [k|]; munfold; simpl; [|by intros [= <- <-]].
  destruct (server_down w); simpl; [by intros [= <- <-]|].
  destruct (table w !! k) as [old|]; simpl; [|by intros [= <- <-]].
  destruct (id old) as [j|]; simpl; [|by intros [= <- <-]].
  destruct (server_down (after_trip w)); simpl; [by intros [= <- <-]|].
  destruct (first_name user) as [fn|]; simpl; [|by intros [= <- <-]].
  destruct (last_name user) as [ln|]; simpl; [|by intros [= <- <-]].
  destruct (server_down (set_table _ _)); simpl; [by intros [= <- <-]|].
  rewrite lookup_insert_eq. simpl. by intros [= <- <-].
Qed.

(** X17.  A request compares at most one password, and only with the hash
    stored for the email it claims.  Whatever a request returns or raises,
    the log of [bcrypt.checkpw] is as before, or longer by one entry: the
    password of the request against the stored password of a row whose
    email is the username of the request. *)
Theorem X17_compares_only_claimed_hash `{Bcrypt} (q : Request) (w : World)
    (o : Outcome Response) (w' : World) :
  handle q w = (o, w') ->
  checkpw_log w' = checkpw_log w \/
  exists c u k,
    credentials_of q = Some c /\
    table w !! k = Some u /\ email u = username c /\
    checkpw_log w' =
      (checkpw_log w ++
         [(encode_utf8 (cred_password c), encode_utf8 (password u))])%list.
Proof.
  intros Hq.
  destruct q as [b|c|c|c r]; simpl in Hq.
  - left.
    change (post_signup b w) with (signup (parse_User w b) w) in Hq.
    unfold signup in Hq. rewrite bind_apply in Hq. unfold gensalt in Hq.
    rewrite bind_apply in Hq. unfold lift in Hq.
    destruct (hashpw _ _) as [h|e]; [|by injection Hq as <- <-].
    rewrite bind_apply, create_user_eq in Hq.
    destruct (insertable _ _); by injection Hq as <- <-.
  - unfold login in Hq. rewrite bind_apply, get_user_from_email_eq in Hq.
    destruct (server_down w); [left; by injection Hq as <- <-|].
    destruct (find_email _ _) as [u|] eqn:Hf; [|left; by injection Hq as <- <-].
    right. exists c, u. destruct (find_email_Some _ _ _ Hf) as (k0 & Hk0 & He0).
    exists k0. repeat split; try done.
    rewrite bind_apply in Hq. unfold call_checkpw in Hq.
    destruct (checkpw _ _) as [[|]|]; by injection Hq as <- <-.
  - unfold get_current_user in Hq.
    rewrite bind_apply, get_user_from_email_eq in Hq.
    destruct (server_down w); [left; by injection Hq as <- <-|].
    destruct (find_email _ _) as [u|] eqn:Hf; [|left; by injection Hq as <- <-].
    right. exists c, u. destruct (find_email_Some _ _ _ Hf) as (k0 & Hk0 & He0).
    exists k0. repeat split; try done.
    rewrite bind_apply in Hq. unfold call_checkpw in Hq.
    destruct (checkpw _ _) as [[|]|]; simpl in Hq; try by injection Hq as <- <-.
    rewrite bind_apply in Hq. unfold lift in Hq.
    destruct (safe_dict u); by injection Hq as <- <-.
  - unfold update_user in Hq.
    rewrite bind_apply, get_user_from_email_eq in Hq.
    destruct (server_down w); [left; by injection Hq as <- <-|].
    destruct (find_email _ _) as [u|] eqn:Hf; [|left; by injection Hq as <- <-].
    right. exists c, u. destruct (find_email_Some _ _ _ Hf) as (k0 & Hk0 & He0).
    exists k0. repeat split; try done.
    rewrite bind_apply in Hq. unfold call_checkpw in Hq.
    destruct (checkpw _ _) as [[|]|]; simpl in Hq; try by injection Hq as <- <-.
    rewrite bind_apply in Hq.
    assert (forall (m : M string) w1 pw w2,
              m = mret (password u) \/
              (exists p, m = (salt ← gensalt;
                              h ← lift (hashpw (encode_utf8 p) salt);
                              mret (decode_utf8 h))) ->
              m w1 = (pw, w2) -> checkpw_log w2 = checkpw_log w1) as Hpw.
    { intros m w1 pw w2 [->|[p ->]].
      - by intros [= <- <-].
      - rewrite bind_apply. unfold gensalt. rewrite bind_apply. unfold lift.
        destruct (hashpw _ _); by intros [= <- <-]. }
    match type of Hq with context [match ?m (set_checkpw_log ?a ?b) with _ => _ end] =>
      destruct (m (set_checkpw_log a b)) as [[pw|e] w2] eqn:Hm;
      assert (checkpw_log w2 = checkpw_log (set_checkpw_log a b)) as Hlog
        by (eapply (Hpw m (set_checkpw_log a b)); [|exact Hm];
            destruct (req_password r) as [p|]; [|by left];
            destruct (negb _); [right; by exists p|by left])
    end.
    2:{ by injection Hq as <- <-. }
    rewrite bind_apply in Hq. simpl in Hq. rewrite bind_apply in Hq.
    destruct (update_user_with_id _ _ _) as [res w3] eqn:Hupd.
    apply update_user_with_id_side in Hupd as [Hl3 _].
    assert (w' = w3) as -> by (destruct res as [[?|]|?]; by injection Hq).
    by rewrite Hl3, Hlog.
Qed.

Lemma X17_compares_only_claimed_hash_witness :
  let w' := (@handle Demo.demo_bcrypt (GetLogin Demo.wrong_creds) Demo.registered).2 in
  checkpw_log w' = checkpw_log Demo.registered \/
  exists c u k,
    credentials_of (GetLogin Demo.wrong_creds) = Some c /\
    table Demo.registered !! k = Some u /\ email u = username c /\
    checkpw_log w' =
      (checkpw_log Demo.registered ++
         [(encode_utf8 (cred_password c), encode_utf8 (password u))])%list.
Proof.
  intros w'.
  apply (@X17_compares_only_claimed_hash Demo.demo_bcrypt
           (GetLogin Demo.wrong_creds) Demo.registered
           (@handle Demo.demo_bcrypt (GetLogin Demo.wrong_creds) Demo.registered).1 w').
  by destruct (handle _ _).
Defined.

(** ** Rows come from signups only *)

(** X18.  Only a signup answered 201 adds a row, and it adds one.  After
    any request on a well-formed table the set of keys in use is as before,
    unless the request is a signup answered 201: then exactly one key,
    free before, has been added. *)
Theorem X18_only_signup_adds_rows `{Bcrypt} (q : Request) (w : World)
    (o : Outcome Response) (w' : World) :
  wf_table (table w) ->
  handle q w = (o, w') ->
  dom (table w') = dom (table w) \/
  exists b key,
    q = PostSignup b /\ o = Ret created_201 /\
    (key ∉ dom (table w)) /\
    dom (table w') = {[key]} ∪ dom (table w) /\
    size (table w') = S (size (table w)).
Proof.
  intros Hwf Hq. destruct q as [b|c|c|c r]; simpl in Hq.
  - change (post_signup b w) with (signup (parse_User w b) w) in Hq.
    unfold signup in Hq. rewrite bind_apply in Hq. unfold gensalt in Hq.
    rewrite bind_apply in Hq. unfold lift in Hq.
    destruct (hashpw _ _) as [h|e]; [|left; by injection Hq as <- <-].
    rewrite bind_apply, create_user_eq in Hq.
    destruct (insertable _ _) eqn:Hins; injection Hq as <- <-; [|by left].
    apply insertable_true in Hins as (_ & Hbc & Hbu & _ & _ & _ & Hfree & _).
    right. eexists b, _. split; [done|]. split; [done|]. simpl in *.
    split; [by apply not_elem_of_dom|]. split.
    + apply dom_insert_L.
    + by apply map_size_insert_None.
  - left. by rewrite (login_table _ _ _ _ Hq).
  - left. by rewrite (get_current_user_table _ _ _ _ Hq).
  - left. destruct (update_user_table _ _ _ _ _ Hq)
      as [->|(k0 & old & j & patch & Hold & Hj & _ & _ & ->)]; [done|].
    pose proof (wf_keyed _ Hwf _ _ Hold) as Hk0.
    assert (j = k0) as -> by congruence.
    apply dom_insert_lookup_L. by eexists.
Qed.

Lemma X18_only_signup_adds_rows_witness :
  let w' := (@handle Demo.demo_bcrypt (PostSignup Demo.alice) Demo.boot).2 in
  dom (table w') = dom (table Demo.boot) \/
  exists b key,
    PostSignup Demo.alice = PostSignup b /\
    (@handle Demo.demo_bcrypt (PostSignup Demo.alice) Demo.boot).1
      = Ret created_201 /\
    (key ∉ dom (table Demo.boot)) /\
    dom (table w') = {[key]} ∪ dom (table Demo.boot) /\
    size (table w') = S (size (table Demo.boot)).
Proof.
  intros w'.
  apply (@X18_only_signup_adds_rows Demo.demo_bcrypt (PostSignup Demo.alice)
           Demo.boot).
  - apply wf_table_empty.
  - by destruct (handle _ _).
Defined.

(** ** A changed password *)

(** X19.  A password change takes effect at once.  After [PUT /me]
    answered 200 to a request that brings a new password, a login under
    the same email that reaches the server compares the claimed password
    with the hash of the new password, the one [bcrypt.hashpw] returned
    during the update; the former hash is no longer consulted. *)
Theorem X19_password_change_takes_effect `{Bcrypt} (credentials : Credentials)
    (new_user : UpdateRequest) (w : World) (r : Response) (w' : World)
    (p : string) (next : Credentials) :
  wf_table (table w) ->
  update_user credentials new_user w = (Ret r, w') -> status_code r = 200 ->
  req_password new_user = Some p -> p <> "" ->
  username next = username credentials ->
  server_down w' = false ->
  exists h row,
    hashpw (encode_utf8 p) (entropy w (draws w)) = Ret h /\
    encode_utf8 (password row) = h /\
    login next w' =
    match checkpw (encode_utf8 (cred_password next)) h with
    | Ret true => (Ret ok_200, compared next row w')
    | Ret false => (Ret unauthorized, compared next row w')
    | Raise e => (Raise e, compared next row w')
    end.
Proof.
  intros Hwf Hu Hr Hp Hne Hname Hup.
  pose proof (update_user_wf _ _ _ _ _ Hu Hwf) as Hwf'.
  destruct (update_user_200 _ _ _ _ _ Hu Hr)
    as (u & k & old & j & pw & _ & Hf & _ & Hid & Hold & Hj & Hpw & Ht).
  destruct (find_email_Some _ _ _ Hf) as (k0 & Hk0 & He).
  pose proof (wf_keyed _ Hwf _ _ Hk0) as Hku.
  assert (k0 = k) as -> by congruence.
  assert (old = u) as -> by congruence.
  assert (j = k) as -> by congruence.
  destruct Hpw as [[Hfalse _]|(p' & h & Hp' & _ & Hh & ->)].
  { rewrite Hp, truthy_Some_nonempty in Hfalse; done. }
  assert (p' = p) as -> by congruence.
  set (row := mkUser (id u) (email u) (decode_utf8 h)
                     (next_first_name new_user u) (next_last_name new_user u)
                     (account_created u) (Some (Dt (clock w)))) in *.
  exists h, row. split; [done|]. split; [done|].
  assert (find_email (username next) (table w') = Some row) as Hf'.
  { rewrite Hname, <- He. change (email u) with (email row).
    eapply find_email_unique; [apply Hwf'|]. rewrite Ht. apply lookup_insert_eq. }
  by rewrite (login_found _ _ row).
Qed.

Lemma X19_password_change_takes_effect_witness :
  let req := mkUpdateRequest (Some "updatedpassword") None None in
  let w' := (@update_user Demo.demo_bcrypt Demo.alice_creds req Demo.registered).2 in
  exists h row,
    Demo.demo_hashpw "updatedpassword" "$2b$abcd" = Ret h /\
    encode_utf8 (password row) = h /\
    @login Demo.demo_bcrypt Demo.alice_creds w' =
    match Demo.demo_checkpw "longenough1" h with
    | Ret true => (Ret ok_200, compared Demo.alice_creds row w')
    | Ret false => (Ret unauthorized, compared Demo.alice_creds row w')
    | Raise e => (Raise e, compared Demo.alice_creds row w')
    end.
Proof.
  intros req w'.
  apply (@X19_password_change_takes_effect Demo.demo_bcrypt Demo.alice_creds req
           Demo.registered ok_200 w' "updatedpassword" Demo.alice_creds).
  - apply registered_wf.
  - vm_compute. reflexivity.
  - reflexivity.
  - reflexivity.
  - discriminate.
  - reflexivity.
  - reflexivity.
Defined.

(** ** Empty texts in an update *)

(** X20.  An empty text counts as not supplied.  When [PUT /me] answers
    200 on a well-formed table, a [first_name], a [last_name] or a
    [password] that the request gives as the empty text leaves the stored
    value as it was; in particular an empty password is not hashed and the
    former hash stays. *)
Theorem X20_empty_text_is_not_supplied `{Bcrypt} (credentials : Credentials)
    (new_user : UpdateRequest) (w : World) (r : Response) (w' : World) :
  wf_table (table w) ->
  update_user credentials new_user w = (Ret r, w') -> status_code r = 200 ->
  exists k old new,
    table w !! k = Some old /\ email old = username credentials /\
    table w' !! k = Some new /\
    (req_first_name new_user = Some "" -> first_name new = first_name old) /\
    (req_last_name new_user = Some "" -> last_name new = last_name old) /\
    (req_password new_user = Some "" -> password new = password old) /\
    is_Some (first_name new) /\ is_Some (last_name new).
Proof.
  intros Hwf Hu Hr.
  pose proof (update_user_wf _ _ _ _ _ Hu Hwf) as Hwf'.
  destruct (update_user_200 _ _ _ _ _ Hu Hr)
    as (u & k & old & j & pw & _ & Hf & _ & Hid & Hold & Hj & Hpw & Ht).
  destruct (find_email_Some _ _ _ Hf) as (k0 & Hk0 & He).
  pose proof (wf_keyed _ Hwf _ _ Hk0) as Hku.
  assert (k0 = k) as -> by congruence.
  assert (old = u) as -> by congruence.
  assert (j = k) as -> by congruence.
  eexists k, u, _. split; [done|]. split; [done|].
  split; [rewrite Ht; apply lookup_insert_eq|].
  simpl. unfold next_first_name, next_last_name. repeat split.
  - by intros ->.
  - by intros ->.
  - intros Hp. destruct Hpw as [[_ ->]|(p & h & Hp' & Htr & _)]; [done|].
    rewrite Hp in Hp'. injection Hp' as <-. discriminate Htr.
  - destruct (wf_names _ Hwf _ _ Hk0) as [Hfn Hln].
    by destruct (next_names_present new_user u Hfn Hln).
  - destruct (wf_names _ Hwf _ _ Hk0) as [Hfn Hln].
    by destruct (next_names_present new_user u Hfn Hln).
Qed.

Lemma X20_empty_text_is_not_supplied_witness :
  let req := mkUpdateRequest (Some "") (Some "") (Some "Z") in
  let w' := (@update_user Demo.demo_bcrypt Demo.alice_creds req Demo.registered).2 in
  exists k old new,
    table Demo.registered !! k = Some old /\ email old = "a@x.com" /\
    table w' !! k = Some new /\
    (req_first_name req = Some "" -> first_name new = first_name old) /\
    (req_last_name req = Some "" -> last_name new = last_name old) /\
    (req_password req = Some "" -> password new = password old) /\
    is_Some (first_name new) /\ is_Some (last_name new).
Proof.
  intros req w'.
  apply (@X20_empty_text_is_not_supplied Demo.demo_bcrypt Demo.alice_creds req
           Demo.registered ok_200 w').
  - apply registered_wf.
  - vm_compute. reflexivity.
  - reflexivity.
Defined.

(** ** Timestamps of the rows *)

Section Timestamps.
Context `{Bcrypt}.

Lemma handle_stamps_set q w o w' :
  handle q w = (o, w') -> wf_table (table w) ->
  stamps_set (table w) -> stamps_set (table w').
Proof.
  intros Hq Hwf Hst. destruct q as [b|c|c|c r]; simpl in Hq.
  - change (post_signup b w) with (signup (parse_User w b) w) in Hq.
    unfold signup in Hq. rewrite bind_apply in Hq. unfold gensalt in Hq.
    rewrite bind_apply in Hq. unfold lift in Hq.
    destruct (hashpw _ _) as [h|e]; [|by injection Hq as <- <-].
    rewrite bind_apply, create_user_eq in Hq.
    destruct (insertable _ _); injection Hq as <- <-; [|done].
    intros k u. simpl. rewrite lookup_insert. case_decide.
    + intros [= <-]. by eexists _, _.
    + apply Hst.
  - by rewrite (login_table _ _ _ _ Hq).
  - by rewrite (get_current_user_table _ _ _ _ Hq).
  - destruct (update_user_table _ _ _ _ _ Hq)
      as [->|(k0 & old & j & patch & Hold & Hj & _ & _ & ->)]; [done|].
    intros k u. rewrite lookup_insert. case_decide.
    + intros [= <-]. rewrite merged_fields. simpl.
      destruct (Hst _ _ Hold) as (c0 & m0 & Hc0 & _). by eexists _, _.
    + apply Hst.
Qed.

Lemma reachable_stamps_set w : reachable w -> stamps_set (table w).
Proof.
  induction 1 as [w Hw|q w o w' Hr IH Hq|w w' _ IH Ht].
  - rewrite Hw. intros k u. by rewrite lookup_empty.
  - eapply handle_stamps_set; [done| |done]. by apply reachable_wf.
  - by rewrite Ht.
Qed.

End Timestamps.

(** X21.  Every row the service can reach has its two timestamps, so the
    current-user request never fails on a missing one.  In a world reached
    from an empty table by requests, each row holds a datetime in
    [account_created] and in [account_updated], and [GET /me] with
    accepted credentials for that row, reaching the server, is answered
    200 with the six members of the projection. *)
Theorem X21_reachable_rows_have_timestamps `{Bcrypt} (w : World) (k : Z) (u : User) :
  reachable w ->
  table w !! k = Some u ->
  (exists c m, account_created u = Some (Dt c) /\ account_updated u = Some (Dt m)) /\
  (forall credentials,
     email u = username credentials -> server_down w = false ->
     checkpw (encode_utf8 (cred_password credentials))
             (encode_utf8 (password u)) = Ret true ->
     exists d,
       get_current_user credentials w =
         (Ret (mkResponse 200 [] (Some d)), compared credentials u w) /\
       keys d = safe_keys).
Proof.
  intros Hr Hk.
  destruct (reachable_stamps_set w Hr k u Hk) as (c & m & Hc & Hm).
  split; [by exists c, m|].
  intros credentials He Hd Hchk.
  assert (find_email (username credentials) (table w) = Some u) as Hf.
  { rewrite <- He. eapply find_email_unique; [|done].
    apply (wf_unique _ (reachable_wf w Hr)). }
  rewrite (get_current_user_found _ _ u), Hchk by done.
  unfold safe_dict. rewrite Hc, Hm. by eexists.
Qed.

Lemma X21_reachable_rows_have_timestamps_witness :
  (exists c m, account_created Demo.alice_row = Some (Dt c) /\
               account_updated Demo.alice_row = Some (Dt m)) /\
  (forall credentials,
     email Demo.alice_row = username credentials ->
     server_down Demo.registered = false ->
     Demo.demo_checkpw (encode_utf8 (cred_password credentials))
                       (encode_utf8 (password Demo.alice_row)) = Ret true ->
     exists d,
       @get_current_user Demo.demo_bcrypt credentials Demo.registered =
         (Ret (mkResponse 200 [] (Some d)),
          compared credentials Demo.alice_row Demo.registered) /\
       keys d = safe_keys).
Proof.
  apply (@X21_reachable_rows_have_timestamps Demo.demo_bcrypt Demo.registered 1
           Demo.alice_row).
  - apply (@reach_handle Demo.demo_bcrypt (PostSignup Demo.alice) Demo.boot
             (Ret (mkResponse 201 [] None)) Demo.registered).
    + apply reach_boot. reflexivity.
    + vm_compute. reflexivity.
  - reflexivity.
Defined.
